(** * UIRobot driver: a shallow embedding of [src/driver/UIRobot.ts]

    The driver forwards property writes to a remote agent as text lines
    over a TCP socket.  The embedding keeps the class fields in a record,
    the host (socket, clock, timers) in another, and writes every method
    as an action of a small state monad that logs the host calls in the
    order the code makes them. *)

From Stdlib Require Import String Ascii List ZArith NArith Bool Lia.
From Stdlib Require Import DecimalString Permutation.
Import ListNotations.

Local Open Scope string_scope.
Local Open Scope list_scope.

(** ** The fragment of JavaScript the driver relies on *)
Module Js.

(** Values that flow through the driver.  [JObject text] is an object
    or function whose conversion to a string is [text]. *)
Inductive jsval : Type :=
| JUndefined
| JNaN
| JNum (n : Z)
| JStr (s : string)
| JObject (text : string).

(** The double quote character, as a one-character string. *)
Definition dquote : string := String (ascii_of_nat 34) EmptyString.

(** Number to string.  The numbers of the driver are small integers, so
    the decimal form is the whole story. *)
Definition num_toString (n : Z) : string :=
  NilZero.string_of_int (Z.to_int n).

(** ToString of the language. *)
Definition toString (v : jsval) : string :=
  match v with
  | JUndefined => "undefined"
  | JNaN => "NaN"
  | JNum n => num_toString n
  | JStr s => s
  | JObject text => text
  end.

(** ToBoolean of the language. *)
Definition truthy (v : jsval) : bool :=
  match v with
  | JUndefined => false
  | JNaN => false
  | JNum n => negb (Z.eqb n 0)
  | JStr s => negb (String.eqb s "")
  | JObject _ => true
  end.

(** [a || b] *)
Definition or (a b : jsval) : jsval := if truthy a then a else b.

(** [a || b] where both sides are strings. *)
Definition str_or (a b : string) : string :=
  if truthy (JStr a) then a else b.

(** [a + b]: numeric addition when both sides are numbers, string
    concatenation as soon as one side is a string or an object. *)
Definition plus (a b : jsval) : jsval :=
  match a, b with
  | JNum x, JNum y => JNum (x + y)
  | (JStr _ | JObject _), _ => JStr (toString a ++ toString b)
  | _, (JStr _ | JObject _) => JStr (toString a ++ toString b)
  | _, _ => JNaN
  end.

(** [s.split(sep)] for a one-character separator. *)
Fixpoint split (sep : ascii) (s : string) : list string :=
  match s with
  | EmptyString => [EmptyString]
  | String c rest =>
      if Ascii.eqb c sep then EmptyString :: split sep rest
      else match split sep rest with
           | head :: tail => String c head :: tail
           | [] => [String c EmptyString]
           end
  end.

(** [a[i]]: reading past the end gives [undefined]. *)
Definition index (a : list string) (i : nat) : jsval :=
  match nth_error a i with
  | Some s => JStr s
  | None => JUndefined
  end.

(** [a.slice(start)] and [a.slice(0, stop)]. *)
Definition slice_from (start : nat) (a : list string) : list string :=
  skipn start a.
Definition slice_to (stop : nat) (a : list string) : list string :=
  firstn stop a.

(** [a.join(sep)]: [undefined] elements are written as nothing. *)
Definition join_elem (v : jsval) : string :=
  match v with
  | JUndefined => ""
  | _ => toString v
  end.

Fixpoint join (sep : string) (a : list jsval) : string :=
  match a with
  | [] => ""
  | [v] => join_elem v
  | v :: rest => join_elem v ++ sep ++ join sep rest
  end.

(** What the engine puts on [Object.prototype], which every object
    literal inherits from: for a member name, the text its value
    converts to.  The members and their text depend on the engine, so
    they are an interface. *)
Class Engine : Type := { objectPrototype : string -> option string }.

(** An engine with the members of ECMAScript's Object.prototype,
    printed the way V8 and Nashorn print built-in functions. *)
Definition nativeText (name : string) : string :=
  "function " ++ name ++ "() { [native code] }".

Definition standardPrototype (name : string) : option string :=
  if String.eqb name "constructor" then Some (nativeText "Object")
  else if existsb (String.eqb name)
            ["toString"; "toLocaleString"; "valueOf"; "hasOwnProperty";
             "isPrototypeOf"; "propertyIsEnumerable"]
  then Some (nativeText name)
  else None.

Definition standardEngine : Engine :=
  {| objectPrototype := standardPrototype |}.

(** An engine whose object literals inherit nothing. *)
Definition bareEngine : Engine := {| objectPrototype := fun _ => None |}.

End Js.

Import Js.

(** ** The host: socket, clock and timers *)

(** The calls the driver makes on its host, and the calls the host makes
    back, in the order they happen. *)
Inductive Event : Type :=
| SetMaxLineLength (n : Z)
| EnableWakeOnLAN
| AutoConnect
| Subscribe (event : string)
| SendText (line : string)
| WakeOnLAN
| Changed (prop : string)
| Wait (timer : nat) (delay : N)
| Cancel (timer : nat)
| Resolved (timer : nat).

(** The continuations the driver hands to [then]. *)
Inductive Callback : Type :=
| ReleaseKeys.

(** A pending timer: its identity, the time it is due, and the
    continuations attached to it. *)
Record Timer : Type := mkTimer {
  timerId : nat;
  due : N;
  callbacks : list Callback
}.

Record Host : Type := mkHost {
  connected : bool;
  clock : N;
  timers : list Timer;
  nextTimer : nat;
  trace : list Event
}.

(** ** The driver's fields *)
Record Driver : Type := mkDriver {
  mLeftDown : bool;
  mRightDown : bool;
  mProgramParams : string;
  mCurrentKeys : string;
  mKeyRlsTimer : option nat
}.

Record World : Type := mkWorld {
  driver : Driver;
  host : Host
}.

Record ProgramParams : Type := mkProgramParams {
  program : string;
  workingDir : string;
  arguments : list string
}.

(** ** A state monad over the world *)
Definition Act (A : Type) : Type := World -> A * World.

Definition ret {A : Type} (a : A) : Act A := fun w => (a, w).

Definition bind {A B : Type} (m : Act A) (k : A -> Act B) : Act B :=
  fun w => let (a, w') := m w in k a w'.

Notation "x <- m ;; k" := (bind m (fun x => k))
  (at level 61, m at next level, right associativity).
Notation "m ;; k" := (bind m (fun _ => k))
  (at level 61, right associativity).

(** The world an action leaves behind. *)
Definition exec {A : Type} (m : Act A) (w : World) : World := snd (m w).

(** [this] *)
Definition this : Act Driver := fun w => (driver w, w).

Definition modifyDriver (f : Driver -> Driver) : Act unit :=
  fun w => (tt, mkWorld (f (driver w)) (host w)).

Definition modifyHost (f : Host -> Host) : Act unit :=
  fun w => (tt, mkWorld (driver w) (f (host w))).

Definition assign_mLeftDown (v : bool) : Act unit :=
  modifyDriver (fun d =>
    mkDriver v (mRightDown d) (mProgramParams d) (mCurrentKeys d) (mKeyRlsTimer d)).

Definition assign_mRightDown (v : bool) : Act unit :=
  modifyDriver (fun d =>
    mkDriver (mLeftDown d) v (mProgramParams d) (mCurrentKeys d) (mKeyRlsTimer d)).

Definition assign_mProgramParams (v : string) : Act unit :=
  modifyDriver (fun d =>
    mkDriver (mLeftDown d) (mRightDown d) v (mCurrentKeys d) (mKeyRlsTimer d)).

Definition assign_mCurrentKeys (v : string) : Act unit :=
  modifyDriver (fun d =>
    mkDriver (mLeftDown d) (mRightDown d) (mProgramParams d) v (mKeyRlsTimer d)).

Definition assign_mKeyRlsTimer (v : option nat) : Act unit :=
  modifyDriver (fun d =>
    mkDriver (mLeftDown d) (mRightDown d) (mProgramParams d) (mCurrentKeys d) v).

(** ** Host primitives *)

Definition emit (e : Event) : Act unit :=
  modifyHost (fun h =>
    mkHost (connected h) (clock h) (timers h) (nextTimer h) (trace h ++ [e])).

(** [socket.connected] *)
Definition socket_connected : Act bool := fun w => (connected (host w), w).

(** [socket.sendText(line)] *)
Definition sendText (line : string) : Act unit := emit (SendText line).

(** [socket.wakeOnLAN()]: a signal to the transport; the connection state
    changes only when the transport later reports it. *)
Definition wakeOnLAN : Act unit := emit WakeOnLAN.

(** [this.changed(prop)] *)
Definition changed (prop : string) : Act unit := emit (Changed prop).

(** The timer queue is kept in order of due time; a new timer goes behind
    the ones due no later than itself. *)
Fixpoint enqueue (t : Timer) (q : list Timer) : list Timer :=
  match q with
  | [] => [t]
  | u :: rest =>
      if (due u <=? due t)%N then u :: enqueue t rest else t :: u :: rest
  end.

Definition dequeue (id : nat) (q : list Timer) : list Timer :=
  filter (fun u => negb (Nat.eqb (timerId u) id)) q.

(** Modelled from the spec: the host's [wait(ms)], whose code is not part
    of the sources.  It hands out a cancelable timer that becomes due [ms]
    time units from now. *)
Definition wait (ms : N) : Act nat :=
  fun w =>
    let h := host w in
    let id := nextTimer h in
    let t := mkTimer id (clock h + ms) [] in
    (id, mkWorld (driver w)
           (mkHost (connected h) (clock h) (enqueue t (timers h)) (S id)
                   (trace h ++ [Wait id ms]))).

(** Modelled from the spec: [timer.cancel()] of the host.  A cancelled
    timer leaves the queue, so its continuations never run. *)
Definition cancel (id : nat) : Act unit :=
  modifyHost (fun h =>
    mkHost (connected h) (clock h) (dequeue id (timers h)) (nextTimer h)
           (trace h ++ [Cancel id])).

(** Modelled from the spec: [timer.then(callback)] of the host.  The
    continuation runs when the timer becomes due, if it is still queued. *)
Definition then_ (id : nat) (cb : Callback) : Act unit :=
  modifyHost (fun h =>
    mkHost (connected h) (clock h)
           (map (fun u => if Nat.eqb (timerId u) id
                          then mkTimer (timerId u) (due u) (callbacks u ++ [cb])
                          else u) (timers h))
           (nextTimer h) (trace h)).

(** ** The driver's methods *)
Module UIRobot.

(** [static readonly kPowerDownProgram] *)
Definition kPowerDownProgram : string :=
  "C:/Windows/System32/shutdown.exe||/s /f /t 0".

(** [static quote(str)] *)
Definition quote (str : jsval) : string :=
  toString (plus (plus (JStr dquote) str) (JStr dquote)).

(** [private parseProgramParams(programParams)] *)
Definition parseProgramParams (programParams : string) : option ProgramParams :=
  if truthy (JStr programParams) then
    let params := split "|" programParams in
    Some {| program := quote (index params 0);
            workingDir := str_or (quote (index params 1)) "/";
            arguments := slice_from 2 params |}
  else None.

(** [protected sendCommand(command, ...args)].  The diagnostic
    [console.log] is left out. *)
Definition sendCommand (command : string) (args : list jsval) : Act unit :=
  let command := (command ++ " " ++ join " " args)%string in
  sendText command.

(** [private sendMouseButtonState(buttonMask, down)] *)
Definition sendMouseButtonState (buttonMask : Z) (down : bool) : Act unit :=
  sendCommand "MousePress" [JNum buttonMask; JNum (if down then 1 else 2)].

(** [protected onConnectStateChanged(connected)] *)
Definition onConnectStateChanged (connected : bool) : Act unit :=
  (if negb connected then assign_mProgramParams "" else ret tt) ;;
  changed "power".

(** [get program()] *)
Definition get_program : Act string :=
  d <- this ;; ret (mProgramParams d).

(** [set program(programParams)] *)
Definition set_program (programParams : string) : Act unit :=
  d <- this ;;
  let runningProgram := parseProgramParams (mProgramParams d) in
  match runningProgram with
  | Some running => sendCommand "Terminate" [JStr (program running)]
  | None => ret tt
  end ;;
  let newProgram := parseProgramParams programParams in
  match newProgram with
  | Some new =>
      assign_mProgramParams programParams ;;
      sendCommand "Launch"
        (JStr (workingDir new) :: JStr (program new)
           :: map JStr (arguments new))
  | None => assign_mProgramParams ""
  end.

(** [set power(power)] *)
Definition set_power (power : bool) : Act unit :=
  if power then
    c <- socket_connected ;;
    if negb c then wakeOnLAN else ret tt
  else set_program kPowerDownProgram.

(** [get power()] *)
Definition get_power : Act bool :=
  c <- socket_connected ;;
  p <- get_program ;;
  ret (c && negb (String.eqb p kPowerDownProgram)).

(** [set leftDown(value)] and [get leftDown()] *)
Definition set_leftDown (value : bool) : Act unit :=
  d <- this ;;
  if negb (Bool.eqb (mLeftDown d) value) then
    assign_mLeftDown value ;;
    sendMouseButtonState 1024 value
  else ret tt.

Definition get_leftDown : Act bool := d <- this ;; ret (mLeftDown d).

(** [set rightDown(value)] and [get rightDown()] *)
Definition set_rightDown (value : bool) : Act unit :=
  d <- this ;;
  if negb (Bool.eqb (mRightDown d) value) then
    assign_mRightDown value ;;
    sendMouseButtonState 4096 value
  else ret tt.

Definition get_rightDown : Act bool := d <- this ;; ret (mRightDown d).

(** [moveMouse(x, y)], for whole-number distances. *)
Definition moveMouse (x y : Z) : Act unit :=
  sendCommand "MouseMove" [JNum x; JNum y].

Section KeyDown.
Context {engine : Engine}.

(** The own properties of the [modifierValues] literal. *)
Definition modifierTable : list (string * Z) :=
  [("shift", 1); ("control", 2); ("alt", 4); ("altgr", 8); ("meta", 16)]%Z.

Fixpoint own (table : list (string * Z)) (name : string) : option Z :=
  match table with
  | [] => None
  | (k, v) :: rest => if String.eqb k name then Some v else own rest name
  end.

(** [modifierValues[mod]]: an own property of the literal, else what
    the literal inherits from [Object.prototype], else [undefined]. *)
Definition modifierValues (mod_ : string) : jsval :=
  match own modifierTable mod_ with
  | Some v => JNum v
  | None =>
      match objectPrototype mod_ with
      | Some text => JObject text
      | None => JUndefined
      end
  end.

(** The body of the [forEach]: [modifierSum += modifierValues[mod] || 0] *)
Definition addModifier (modifierSum : jsval) (mod_ : string) : jsval :=
  plus modifierSum (or (modifierValues mod_) (JNum 0)).

(** [set keyDown(keys)] *)
Definition set_keyDown (keys : string) : Act unit :=
  assign_mCurrentKeys keys ;;
  d <- this ;;
  if truthy (JStr (mCurrentKeys d)) then
    let keyPresses := split "+" keys in
    let key := index keyPresses (length keyPresses - 1) in
    let modifierSum :=
      if (1 <? length keyPresses)%nat then
        let modifiers := slice_to (length keyPresses - 1) keyPresses in
        fold_left addModifier modifiers (JNum 0)
      else JNum 0 in
    sendCommand "KeyPress" [key; modifierSum] ;;
    d <- this ;;
    match mKeyRlsTimer d with
    | Some t => cancel t
    | None => ret tt
    end ;;
    t <- wait 200 ;;
    assign_mKeyRlsTimer (Some t) ;;
    then_ t ReleaseKeys
  else ret tt.

(** [get keyDown()] *)
Definition get_keyDown : Act string := d <- this ;; ret (mCurrentKeys d).

(** The continuations handed to [then]. *)
Definition run (cb : Callback) : Act unit :=
  match cb with
  | ReleaseKeys =>
      set_keyDown "" ;;
      assign_mKeyRlsTimer None
  end.

(** The line a non-empty write sends, for stating what goes over the
    wire: the key and the folded modifiers.  With a single token the
    slice is empty and the fold is its initial [0], as in the setter. *)
Definition keyPressLine (keys : string) : string :=
  let keyPresses := split "+" keys in
  ("KeyPress " ++
   join " " [index keyPresses (length keyPresses - 1);
             fold_left addModifier
               (slice_to (length keyPresses - 1) keyPresses) (JNum 0)])%string.

End KeyDown.

(** The listener the constructor subscribes to the socket's ['connect']
    event. *)
Definition connectListener (messageType : string) : Act unit :=
  if String.eqb messageType "Connection" then
    c <- socket_connected ;;
    onConnectStateChanged c
  else ret tt.

(** [constructor(socket, bufferSize?)] *)
Definition constructor (bufferSize : option Z) : Act unit :=
  modifyDriver (fun _ => mkDriver false false "" "" None) ;;
  match bufferSize with
  | Some n => if truthy (JNum n) then emit (SetMaxLineLength n) else ret tt
  | None => ret tt
  end ;;
  emit EnableWakeOnLAN ;;
  emit AutoConnect ;;
  emit (Subscribe "connect") ;;
  c <- socket_connected ;;
  if c then onConnectStateChanged true else ret tt.

End UIRobot.

(** ** The event loop around the driver *)
Module Loop.

Section Loop.
Context {engine : Engine}.

Fixpoint runAll (cbs : list Callback) : Act unit :=
  match cbs with
  | [] => ret tt
  | cb :: rest => UIRobot.run cb ;; runAll rest
  end.

(** Modelled from the spec: the host resolving a timer.  A timer that
    is still queued leaves the queue, the clock moves to its due time,
    and its continuations run in the order they were attached; a timer
    cancelled in the meantime does nothing. *)
Definition resolve (id : nat) : Act unit :=
  fun w =>
    let h := host w in
    match find (fun u => Nat.eqb (timerId u) id) (timers h) with
    | Some t =>
        (modifyHost (fun h =>
           mkHost (connected h) (N.max (clock h) (due t))
                  (dequeue id (timers h)) (nextTimer h)
                  (trace h ++ [Resolved id])) ;;
         runAll (callbacks t)) w
    | None => (tt, w)
    end.

Fixpoint resolveAll (ids : list nat) : Act unit :=
  match ids with
  | [] => ret tt
  | id :: rest => resolve id ;; resolveAll rest
  end.

(** Modelled from the spec: [dt] time units pass with no call from
    outside.  The timers that become due are resolved in due order,
    then the clock reads the new time. *)
Definition elapse (dt : N) : Act unit :=
  fun w =>
    let target := (clock (host w) + dt)%N in
    let dueNow := filter (fun u => (due u <=? target)%N) (timers (host w)) in
    (resolveAll (map timerId dueNow) ;;
     modifyHost (fun h =>
       mkHost (connected h) target (timers h) (nextTimer h) (trace h))) w.

(** Modelled from the spec: the transport changes its connection state
    and then tells its subscribers. *)
Definition deliver (messageType : string) (state : bool) : Act unit :=
  modifyHost (fun h =>
    mkHost state (clock h) (timers h) (nextTimer h) (trace h)) ;;
  UIRobot.connectListener messageType.

(** What can happen to a session. *)
Inductive Call : Type :=
| SetPower (power : bool)
| SetLeftDown (value : bool)
| SetRightDown (value : bool)
| MoveMouse (x y : Z)
| SetProgram (programParams : string)
| SetKeyDown (keys : string)
| Message (messageType : string) (state : bool)
| Elapse (dt : N).

Definition step (c : Call) : Act unit :=
  match c with
  | SetPower power => UIRobot.set_power power
  | SetLeftDown value => UIRobot.set_leftDown value
  | SetRightDown value => UIRobot.set_rightDown value
  | MoveMouse x y => UIRobot.moveMouse x y
  | SetProgram programParams => UIRobot.set_program programParams
  | SetKeyDown keys => UIRobot.set_keyDown keys
  | Message messageType state => deliver messageType state
  | Elapse dt => elapse dt
  end.

(** The world before the constructor runs. *)
Definition boot (isConnected : bool) : World :=
  mkWorld (mkDriver false false "" "" None) (mkHost isConnected 0 [] 0 []).

(** The worlds a session can be in. *)
Inductive reachable : World -> Prop :=
| reachable_new (isConnected : bool) (bufferSize : option Z) :
    reachable (exec (UIRobot.constructor bufferSize) (boot isConnected))
| reachable_step (w : World) (c : Call) :
    reachable w -> reachable (exec (step c) w).

(** The release timer in order: none queued and none referenced, or
    exactly the referenced one, due within the delay, never an
    identifier the host has yet to hand out. *)
Definition timerOk (w : World) : Prop :=
  match mKeyRlsTimer (driver w) with
  | None => timers (host w) = []
  | Some id =>
      exists d,
        timers (host w) = [mkTimer id d [ReleaseKeys]]
        /\ (clock (host w) < d)%N
        /\ (d <= clock (host w) + 200)%N
        /\ (id < nextTimer (host w))%nat
  end.

(** A run of calls, one after the other. *)
Fixpoint steps (cs : list Call) : Act unit :=
  match cs with
  | [] => ret tt
  | c :: rest => step c ;; steps rest
  end.

(** The time that passes during a run of calls. *)
Fixpoint elapsed (cs : list Call) : N :=
  match cs with
  | [] => 0
  | Elapse dt :: rest => dt + elapsed rest
  | _ :: rest => elapsed rest
  end.

Definition isKeyDown (c : Call) : bool :=
  match c with
  | SetKeyDown _ => true
  | _ => false
  end.

(** The events an action adds to the trace of [w]. *)
Definition added (m : Act unit) (w : World) : list Event :=
  skipn (length (trace (host w))) (trace (host (exec m w))).

(** The events by which the driver creates or cancels a timer. *)
Definition timerCall (e : Event) : bool :=
  match e with
  | Wait _ _ | Cancel _ => true
  | _ => false
  end.

End Loop.

End Loop.

(** ** Reading a trace *)
Module Wire.

(** What the peer was last told about a mouse button, going by the lines
    of a trace: [downLine] presses it, [upLine] releases it, and before
    any of the two it is up. *)
Definition pressedFrom (downLine upLine : string) (state : bool)
    (tr : list Event) : bool :=
  fold_left
    (fun st e =>
       match e with
       | SendText line =>
           if String.eqb line downLine then true
           else if String.eqb line upLine then false
           else st
       | _ => st
       end) tr state.

Definition pressed (downLine upLine : string) (tr : list Event) : bool :=
  pressedFrom downLine upLine false tr.

(** The command words of the peer's line protocol. *)
Definition commandWords : list string :=
  ["MouseMove"; "MousePress"; "KeyPress"; "Terminate"; "Launch"].

(** [line] opens with [word]. *)
Fixpoint startsWith (word line : string) : bool :=
  match word with
  | EmptyString => true
  | String a word' =>
      match line with
      | EmptyString => false
      | String b line' => Ascii.eqb a b && startsWith word' line'
      end
  end.

(** A line that opens with a command word and a space. *)
Definition knownLine (line : string) : bool :=
  existsb (fun word => startsWith (word ++ " ") line) commandWords.

(** An event that is no line, or a line that opens with a command word. *)
Definition knownEvent (e : Event) : bool :=
  match e with
  | SendText line => knownLine line
  | _ => true
  end.

(** A string in which the character does not occur. *)
Fixpoint lacks (c : ascii) (s : string) : bool :=
  match s with
  | EmptyString => true
  | String x rest => negb (Ascii.eqb x c) && lacks c rest
  end.

(** A call after which the stored program string is what it was: any
    call but a program write, a power-off, and the message of a
    disconnection. *)
Definition keepsProgram (c : Loop.Call) : bool :=
  match c with
  | Loop.SetProgram _ => false
  | Loop.SetPower power => power
  | Loop.Message messageType state =>
      negb (String.eqb messageType "Connection") || state
  | _ => true
  end.

End Wire.

Import UIRobot Loop.

(** * Properties *)

(** ** Strings and parsing *)

Lemma truthy_string (s : string) : truthy (JStr s) = true <-> s <> "".
Proof.
  simpl. destruct (String.eqb_spec s ""); simpl; split; congruence.
Qed.

Lemma split_nonempty (sep : ascii) (s : string) : split sep s <> [].
Proof.
  destruct s as [|c rest]; simpl; [discriminate|].
  destruct (Ascii.eqb c sep); [discriminate|].
  destruct (split sep rest); discriminate.
Qed.

Lemma quote_first (sep : ascii) (s : string) :
  quote (index (split sep s) 0) = (dquote ++ hd "" (split sep s) ++ dquote)%string.
Proof.
  pose proof (split_nonempty sep s) as Hne.
  destruct (split sep s) as [|first others]; [congruence|reflexivity].
Qed.

(** A quoted value starts with a double quote, whatever is quoted. *)
Lemma quote_shape (v : jsval) : exists body, quote v = String (ascii_of_nat 34) body.
Proof.
  destruct v; unfold quote; simpl; eexists; reflexivity.
Qed.

(** The parser rejects the empty string and nothing else. *)
Lemma parseProgramParams_None (p : string) :
  parseProgramParams p = None <-> p = "".
Proof.
  unfold parseProgramParams.
  destruct (truthy (JStr p)) eqn:Ht.
  - apply truthy_string in Ht. split; [discriminate|congruence].
  - split; [intros _|reflexivity].
    destruct (String.eqb_spec p ""); [assumption|].
    simpl in Ht. destruct (String.eqb_spec p ""); [congruence|discriminate].
Qed.

(** What the parser returns on every other string.  The quoted second
    segment is never empty, so the fallback of [||] is never taken. *)
Lemma parseProgramParams_Some (p : string) :
  p <> "" ->
  parseProgramParams p =
    Some {| program := (dquote ++ hd "" (split "|" p) ++ dquote)%string;
            workingDir := quote (index (split "|" p) 1);
            arguments := skipn 2 (split "|" p) |}.
Proof.
  intros Hp. unfold parseProgramParams.
  apply truthy_string in Hp. rewrite Hp.
  rewrite quote_first.
  destruct (quote_shape (index (split "|" p) 1)) as [body Hq].
  unfold str_or. rewrite Hq. reflexivity.
Qed.


(** ** The program property *)

Ltac unfold_act :=
  unfold exec, set_program, get_program, set_power, get_power, sendCommand,
    sendText, wakeOnLAN, changed, emit, socket_connected, this,
    assign_mProgramParams, assign_mCurrentKeys, assign_mKeyRlsTimer,
    modifyDriver, modifyHost, bind, ret in *.

(** C1, at the inputs the claim names: with the second segment absent the
    working directory is the quoted text [undefined], with the second
    segment empty it is a pair of double quotes; in neither case is it
    the default [/], and the [Launch] line that the setter writes for the
    input [exe] carries the quoted [undefined]. *)
Theorem program_workingDir_default_never_taken :
  parseProgramParams "exe" =
    Some {| program := (dquote ++ "exe" ++ dquote)%string;
            workingDir := (dquote ++ "undefined" ++ dquote)%string;
            arguments := [] |}
  /\ parseProgramParams "exe||arg" =
    Some {| program := (dquote ++ "exe" ++ dquote)%string;
            workingDir := (dquote ++ dquote)%string;
            arguments := ["arg"] |}
  /\ (dquote ++ "undefined" ++ dquote)%string <> "/"
  /\ (dquote ++ dquote)%string <> "/"
  /\ trace (host (exec (set_program "exe") (boot false))) =
       [SendText ("Launch " ++ dquote ++ "undefined" ++ dquote ++ " "
                    ++ dquote ++ "exe" ++ dquote)%string].
Proof.
  repeat split; try reflexivity; discriminate.
Qed.

(** C2: when the stored string parses to a running program and the new
    input parses to a spec, the setter writes exactly two lines, first the
    [Terminate] of the running program's quoted executable, then the
    [Launch] of the new spec's quoted working directory, quoted executable
    and arguments in order. *)
Theorem program_terminate_then_launch
    (w : World) (p : string) (running new : ProgramParams) :
  parseProgramParams (mProgramParams (driver w)) = Some running ->
  parseProgramParams p = Some new ->
  trace (host (exec (set_program p) w)) =
    trace (host w) ++
      [SendText ("Terminate " ++ program running)%string;
       SendText ("Launch " ++
                 join " " (JStr (workingDir new) :: JStr (program new)
                             :: map JStr (arguments new)))%string]
  /\ program running =
       (dquote ++ hd "" (split "|" (mProgramParams (driver w))) ++ dquote)%string
  /\ program new = (dquote ++ hd "" (split "|" p) ++ dquote)%string
  /\ workingDir new = quote (index (split "|" p) 1)
  /\ arguments new = skipn 2 (split "|" p).
Proof.
  intros Hrun Hnew.
  split.
  - unfold_act. rewrite Hrun, Hnew. simpl.
    rewrite <- app_assoc. reflexivity.
  - assert (Hs : mProgramParams (driver w) <> "").
    { intros E. apply parseProgramParams_None in E. congruence. }
    assert (Hp : p <> "").
    { intros E. apply parseProgramParams_None in E. congruence. }
    rewrite (parseProgramParams_Some _ Hs) in Hrun.
    rewrite (parseProgramParams_Some _ Hp) in Hnew.
    inversion Hrun; inversion Hnew; subst; simpl. repeat split.
Qed.

Lemma program_terminate_then_launch_witness :
  trace (host (exec (set_program "b|c|d e|f")
                 (exec (set_program "a") (boot false)))) =
    trace (host (exec (set_program "a") (boot false))) ++
      [SendText ("Terminate " ++ dquote ++ "a" ++ dquote)%string;
       SendText ("Launch " ++ dquote ++ "c" ++ dquote ++ " "
                   ++ dquote ++ "b" ++ dquote ++ " d e f")%string].
Proof.
  exact (proj1 (program_terminate_then_launch
                  (exec (set_program "a") (boot false)) "b|c|d e|f"
                  _ _ eq_refl eq_refl)).
Defined.

(** C3: the power getter is true exactly when the transport is connected
    and the stored program string differs from [kPowerDownProgram]; it is
    computed from these two alone and reading it changes nothing. *)
Theorem power_derived (w : World) :
  (fst (get_power w) = true <->
     connected (host w) = true
     /\ mProgramParams (driver w) <> kPowerDownProgram)
  /\ fst (get_power w) =
       (connected (host w)
        && negb (String.eqb (mProgramParams (driver w)) kPowerDownProgram))
  /\ snd (get_power w) = w.
Proof.
  unfold_act. simpl. repeat split.
  - apply andb_prop in H. tauto.
  - apply andb_prop in H. destruct H as [_ H].
    destruct (String.eqb_spec (mProgramParams (driver w)) kPowerDownProgram);
      [discriminate|assumption].
  - intros [Hc Hp]. rewrite Hc. simpl.
    destruct (String.eqb_spec (mProgramParams (driver w)) kPowerDownProgram);
      [contradiction|reflexivity].
Qed.

(** The working directory of a parsed spec is never the default. *)
Lemma workingDir_never_default (p : string) (spec : ProgramParams) :
  parseProgramParams p = Some spec -> workingDir spec <> "/".
Proof.
  intros Hparse.
  assert (Hp : p <> "").
  { intros E. apply parseProgramParams_None in E. congruence. }
  rewrite (parseProgramParams_Some _ Hp) in Hparse.
  inversion Hparse; subst; simpl.
  destruct (quote_shape (index (split "|" p) 1)) as [body Hq].
  rewrite Hq. discriminate.
Qed.

(** C4, as the claim states it, fails: the input [|] names no executable,
    yet the setter stores it and writes a [Launch] line for it. *)
Lemma program_malformed_input_is_launched :
  hd "" (split "|" "|") = ""
  /\ mProgramParams (driver (exec (set_program "|") (boot false))) = "|"
  /\ trace (host (exec (set_program "|") (boot false))) =
       [SendText ("Launch " ++ dquote ++ dquote ++ " " ++ dquote ++ dquote)%string].
Proof. repeat split. Qed.

(** C4, amended: an input the parser rejects is the empty string; the
    setter then stores the empty string and writes no [Launch], only the
    [Terminate] of a program that was running, if there was one. *)
Theorem program_rejected_input_is_no_program (w : World) (p : string) :
  parseProgramParams p = None ->
  p = ""
  /\ mProgramParams (driver (exec (set_program p) w)) = ""
  /\ fst (get_program (exec (set_program p) w)) = ""
  /\ trace (host (exec (set_program p) w)) =
       trace (host w) ++
         match parseProgramParams (mProgramParams (driver w)) with
         | Some running => [SendText ("Terminate " ++ program running)%string]
         | None => []
         end.
Proof.
  intros Hparse. split; [apply parseProgramParams_None; assumption|].
  unfold_act. rewrite Hparse.
  destruct (parseProgramParams (mProgramParams (driver w))); simpl;
    repeat split; rewrite ?app_nil_r; reflexivity.
Qed.

Lemma program_rejected_input_is_no_program_witness :
  mProgramParams
    (driver (exec (set_program "") (exec (set_program "a|b") (boot true)))) = ""
  /\ trace (host (exec (set_program "") (exec (set_program "a|b") (boot true)))) =
       trace (host (exec (set_program "a|b") (boot true))) ++
         [SendText ("Terminate " ++ dquote ++ "a" ++ dquote)%string].
Proof.
  destruct (program_rejected_input_is_no_program
              (exec (set_program "a|b") (boot true)) "" eq_refl)
    as (_ & Hstored & _ & Htrace).
  split; [exact Hstored|exact Htrace].
Defined.

(** C8: after the setter has taken a non-empty input, the getter returns
    that very string. *)
Theorem program_roundtrip (w : World) (p : string) :
  p <> "" ->
  parseProgramParams p <> None
  /\ fst (get_program (exec (set_program p) w)) = p.
Proof.
  intros Hp. split.
  - intros E. apply parseProgramParams_None in E. contradiction.
  - unfold_act. rewrite (parseProgramParams_Some _ Hp).
    destruct (parseProgramParams (mProgramParams (driver w))); reflexivity.
Qed.

Lemma program_roundtrip_witness :
  fst (get_program (exec (set_program "exe|dir|a b") (boot true))) = "exe|dir|a b".
Proof.
  apply (program_roundtrip (boot true) "exe|dir|a b"). discriminate.
Defined.

(** ** Connection events and power *)

(** C7: when the transport changes to [state] and delivers its
    [Connection] message, the driver raises one change notification, for
    [power]; the program getter then returns the empty string if the
    transport is disconnected, and what it returned before otherwise. *)
Theorem connection_event_notifies_power (w : World) (state : bool) :
  let w' := exec (deliver "Connection" state) w in
  trace (host w') = trace (host w) ++ [Changed "power"]
  /\ connected (host w') = state
  /\ fst (get_program w') = (if state then mProgramParams (driver w) else "").
Proof.
  unfold deliver, connectListener, onConnectStateChanged. unfold_act.
  destruct state; simpl; repeat split.
Qed.

(** C9: setting power to true leaves every field of the driver as it was
    and writes no line; it signals wake-on-LAN when the transport is not
    connected and does nothing otherwise, and the power getter returns
    what it returned before. *)
Theorem power_on_only_wakes (w : World) :
  let w' := exec (set_power true) w in
  driver w' = driver w
  /\ trace (host w') =
       trace (host w) ++ (if connected (host w) then [] else [WakeOnLAN])
  /\ connected (host w') = connected (host w)
  /\ clock (host w') = clock (host w)
  /\ timers (host w') = timers (host w)
  /\ nextTimer (host w') = nextTimer (host w)
  /\ fst (get_power w') = fst (get_power w).
Proof.
  unfold_act. destruct w as [d h]. simpl.
  destruct (connected h) eqn:Hc; simpl; rewrite ?Hc, ?app_nil_r;
    repeat split; destruct d; reflexivity.
Qed.

(** ** The keyDown property and its release timer *)

Section KeyDownFacts.
Context {engine : Engine}.

Ltac unfold_keys :=
  unfold set_keyDown, get_keyDown, run, cancel, wait, then_ in *; unfold_act.

(** An empty write stores the empty string and does nothing else. *)
Lemma set_keyDown_empty (w : World) :
  exec (set_keyDown "") w =
    mkWorld (mkDriver (mLeftDown (driver w)) (mRightDown (driver w))
               (mProgramParams (driver w)) "" (mKeyRlsTimer (driver w)))
            (host w).
Proof. reflexivity. Qed.

(** A non-empty write, in full: the line, the cancellation of the timer
    the driver refers to, the new timer, and the new reference. *)
Lemma set_keyDown_nonempty (w : World) (keys : string) :
  keys <> "" ->
  timerOk w ->
  exec (set_keyDown keys) w =
    mkWorld
      (mkDriver (mLeftDown (driver w)) (mRightDown (driver w))
         (mProgramParams (driver w)) keys (Some (nextTimer (host w))))
      (mkHost (connected (host w)) (clock (host w))
         [mkTimer (nextTimer (host w)) (clock (host w) + 200) [ReleaseKeys]]
         (S (nextTimer (host w)))
         (trace (host w) ++
            SendText (keyPressLine keys) ::
            match mKeyRlsTimer (driver w) with
            | Some old => [Cancel old]
            | None => []
            end ++ [Wait (nextTimer (host w)) 200])).
Proof.
  intros Hkeys Hok. apply truthy_string in Hkeys.
  destruct w as [d h]. unfold timerOk in Hok. simpl in Hok.
  assert (Hline :
    (let keyPresses := split "+" keys in
     "KeyPress " ++
     join " " [index keyPresses (length keyPresses - 1);
               if (1 <? length keyPresses)%nat
               then fold_left addModifier
                      (slice_to (length keyPresses - 1) keyPresses) (JNum 0)
               else JNum 0])%string = keyPressLine keys).
  { unfold keyPressLine. cbv zeta.
    pose proof (split_nonempty "+" keys) as Hne.
    destruct (split "+" keys) as [|k0 [|k1 ks]]; [congruence|reflexivity|reflexivity]. }
  cbv zeta in Hline. rewrite <- Hline. clear Hline.
  unfold_keys. cbn [driver host mCurrentKeys]. rewrite Hkeys.
  cbn -[split join fold_left truthy].
  destruct (mKeyRlsTimer d) as [old|] eqn:Href.
  - destruct Hok as (d0 & Htimers & _ & _ & Hfresh).
    cbn -[split join fold_left truthy]. rewrite Htimers.
    cbn -[split join fold_left truthy].
    rewrite Nat.eqb_refl. cbn -[split join fold_left truthy].
    rewrite Nat.eqb_refl. cbn -[split join fold_left truthy].
    repeat rewrite <- app_assoc. reflexivity.
  - cbn -[split join fold_left truthy]. rewrite Hok.
    cbn -[split join fold_left truthy].
    rewrite Nat.eqb_refl. repeat rewrite <- app_assoc. reflexivity.
Qed.

(** What a non-empty write adds to the trace, in any world. *)
Lemma set_keyDown_trace (w : World) (keys : string) :
  keys <> "" ->
  trace (host (exec (set_keyDown keys) w)) =
    trace (host w) ++
      SendText (keyPressLine keys) ::
      match mKeyRlsTimer (driver w) with
      | Some old => [Cancel old]
      | None => []
      end ++ [Wait (nextTimer (host w)) 200].
Proof.
  intros Hkeys. apply truthy_string in Hkeys.
  destruct w as [d h].
  assert (Hline :
    (let keyPresses := split "+" keys in
     "KeyPress " ++
     join " " [index keyPresses (length keyPresses - 1);
               if (1 <? length keyPresses)%nat
               then fold_left addModifier
                      (slice_to (length keyPresses - 1) keyPresses) (JNum 0)
               else JNum 0])%string = keyPressLine keys).
  { unfold keyPressLine. cbv zeta.
    pose proof (split_nonempty "+" keys) as Hne.
    destruct (split "+" keys) as [|k0 [|k1 ks]]; [congruence|reflexivity|reflexivity]. }
  cbv zeta in Hline. rewrite <- Hline. clear Hline.
  unfold_keys. cbn [driver host mCurrentKeys]. rewrite Hkeys.
  cbn -[split join fold_left truthy].
  destruct (mKeyRlsTimer d) as [old|];
    cbn -[split join fold_left truthy];
    repeat rewrite <- app_assoc; reflexivity.
Qed.

(** Time passing short of the due time of the one queued timer moves the
    clock and nothing else. *)
Lemma elapse_before_due (w : World) (t : Timer) (e : N) :
  timers (host w) = [t] ->
  (clock (host w) + e < due t)%N ->
  exec (elapse e) w =
    mkWorld (driver w)
      (mkHost (connected (host w)) (clock (host w) + e) [t]
         (nextTimer (host w)) (trace (host w))).
Proof.
  intros Htimers Hlt. destruct w as [d h]. simpl in *.
  unfold elapse, exec, bind, modifyHost. cbn [host driver].
  rewrite Htimers. cbn [filter].
  apply N.leb_gt in Hlt. rewrite Hlt. cbn. rewrite Htimers. reflexivity.
Qed.

(** With no timer queued, time passing moves the clock and nothing else. *)
Lemma elapse_idle (w : World) (e : N) :
  timers (host w) = [] ->
  exec (elapse e) w =
    mkWorld (driver w)
      (mkHost (connected (host w)) (clock (host w) + e) []
         (nextTimer (host w)) (trace (host w))).
Proof.
  intros Htimers. destruct w as [d h]. simpl in *.
  unfold elapse, exec, bind, modifyHost. cbn [host driver].
  rewrite Htimers. cbn. rewrite Htimers. reflexivity.
Qed.

(** Time passing up to or beyond the due time of the release timer: the
    host resolves it, the continuation stores the empty string, sends
    nothing, and clears the reference. *)
Lemma elapse_release (w : World) (id : nat) (d : N) (e : N) :
  timers (host w) = [mkTimer id d [ReleaseKeys]] ->
  (d <= clock (host w) + e)%N ->
  exec (elapse e) w =
    mkWorld
      (mkDriver (mLeftDown (driver w)) (mRightDown (driver w))
         (mProgramParams (driver w)) "" None)
      (mkHost (connected (host w)) (clock (host w) + e) []
         (nextTimer (host w)) (trace (host w) ++ [Resolved id])).
Proof.
  intros Htimers Hle. destruct w as [dr h]. simpl in *.
  unfold elapse, exec, bind, modifyHost. cbn [host driver].
  rewrite Htimers. cbn [filter due].
  apply N.leb_le in Hle. rewrite Hle.
  cbn [map timerId resolveAll]. unfold bind, resolve. cbn [host timers].
  rewrite Htimers. cbn [find timerId]. rewrite Nat.eqb_refl.
  unfold bind, modifyHost, ret. cbn -[set_keyDown N.add N.max dequeue].
  rewrite Htimers. unfold dequeue. cbn [filter timerId].
  rewrite Nat.eqb_refl. reflexivity.
Qed.

(** [timerOk] looks at the timer reference, the queue, the clock and the
    identifier counter only. *)
Lemma timerOk_frame (w w' : World) :
  mKeyRlsTimer (driver w') = mKeyRlsTimer (driver w) ->
  timers (host w') = timers (host w) ->
  clock (host w') = clock (host w) ->
  nextTimer (host w') = nextTimer (host w) ->
  timerOk w -> timerOk w'.
Proof.
  unfold timerOk. intros -> -> -> ->. trivial.
Qed.

(** The program setter stays clear of the keys and of the timer. *)
Lemma set_program_frame (w : World) (p : string) :
  let w' := exec (set_program p) w in
  mCurrentKeys (driver w') = mCurrentKeys (driver w)
  /\ mKeyRlsTimer (driver w') = mKeyRlsTimer (driver w)
  /\ timers (host w') = timers (host w)
  /\ clock (host w') = clock (host w)
  /\ nextTimer (host w') = nextTimer (host w).
Proof.
  unfold_act.
  destruct (parseProgramParams (mProgramParams (driver w)));
    destruct (parseProgramParams p); simpl; repeat split.
Qed.

(** So does every call other than a keyDown write and the passing of
    time. *)
Lemma other_calls_frame (w : World) (c : Call) :
  (forall keys, c <> SetKeyDown keys) ->
  (forall dt, c <> Elapse dt) ->
  let w' := exec (step c) w in
  mCurrentKeys (driver w') = mCurrentKeys (driver w)
  /\ mKeyRlsTimer (driver w') = mKeyRlsTimer (driver w)
  /\ timers (host w') = timers (host w)
  /\ clock (host w') = clock (host w)
  /\ nextTimer (host w') = nextTimer (host w).
Proof.
  intros Hkey Htime.
  destruct c as [power|value|value|x y|p|keys|messageType state|dt];
    try (exfalso; eapply Hkey; reflexivity);
    try (exfalso; eapply Htime; reflexivity); cbn [step].
  - destruct power.
    + unfold_act. destruct (connected (host w)); simpl; repeat split.
    + apply (set_program_frame w kPowerDownProgram).
  - unfold set_leftDown, sendMouseButtonState. unfold_act.
    destruct (negb (Bool.eqb (mLeftDown (driver w)) value)); simpl; repeat split.
  - unfold set_rightDown, sendMouseButtonState. unfold_act.
    destruct (negb (Bool.eqb (mRightDown (driver w)) value)); simpl; repeat split.
  - unfold moveMouse. unfold_act. simpl. repeat split.
  - apply set_program_frame.
  - unfold deliver, connectListener, onConnectStateChanged. unfold_act.
    destruct (String.eqb messageType "Connection"); [destruct state|];
      simpl; repeat split.
Qed.

(** Every call keeps the release timer in order. *)
Lemma step_timerOk (w : World) (c : Call) :
  timerOk w -> timerOk (exec (step c) w).
Proof.
  intros Hok.
  destruct c as [power|value|value|x y|p|keys|messageType state|dt].
  6: { cbn [step]. destruct (String.eqb_spec keys "") as [->|Hkeys].
       - rewrite set_keyDown_empty. revert Hok. apply timerOk_frame; reflexivity.
       - rewrite (set_keyDown_nonempty w keys Hkeys Hok).
         unfold timerOk. cbn. eexists. split; [reflexivity|]. lia. }
  7: { cbn [step]. unfold timerOk in Hok.
       destruct (mKeyRlsTimer (driver w)) as [id|] eqn:Href.
       - destruct Hok as (d & Htimers & Hlt & Hle & Hfresh).
         destruct (N.le_gt_cases d (clock (host w) + dt)) as [Hdue|Hearly].
         + rewrite (elapse_release w id d dt Htimers Hdue).
           unfold timerOk. reflexivity.
         + rewrite (elapse_before_due w _ dt Htimers Hearly).
           unfold timerOk. cbn. rewrite Href.
           exists d. repeat split; try assumption; lia.
       - rewrite (elapse_idle w dt Hok). unfold timerOk. cbn.
         rewrite Href. reflexivity. }
  all: match goal with
       | |- timerOk (exec (step ?c) ?w0) =>
           assert (Hframe := other_calls_frame w0 c)
       end;
       cbv zeta in Hframe;
       destruct Hframe as (_ & H1 & H2 & H3 & H4); try discriminate;
       revert Hok; apply timerOk_frame; assumption.
Qed.

(** The constructor leaves no timer behind. *)
Lemma constructor_timerOk (isConnected : bool) (bufferSize : option Z) :
  timerOk (exec (constructor bufferSize) (boot isConnected)).
Proof.
  unfold constructor, onConnectStateChanged. unfold_act.
  destruct bufferSize as [n|]; [destruct (truthy (JNum n))|];
    destruct isConnected; reflexivity.
Qed.

(** In every world a session can be in, at most one timer is queued, and
    it is the one the driver refers to. *)
Lemma reachable_timerOk (w : World) : reachable w -> timerOk w.
Proof.
  induction 1 as [isConnected bufferSize|w c _ IH].
  - apply constructor_timerOk.
  - apply step_timerOk. exact IH.
Qed.

Lemma timerOk_at_most_one (w : World) :
  timerOk w -> (length (timers (host w)) <= 1)%nat.
Proof.
  unfold timerOk. destruct (mKeyRlsTimer (driver w)).
  - intros (d & -> & _). simpl. lia.
  - intros ->. simpl. lia.
Qed.

Lemma exec_bind (m k : Act unit) (w : World) :
  exec (m ;; k) w = exec k (exec m w).
Proof.
  unfold exec, bind. destruct (m w). reflexivity.
Qed.

(** While no keyDown write comes in and the due time is not reached, the
    release timer stays queued and referenced, whatever else is called. *)
Lemma steps_keep_pending (cs : list Call) (w : World) (t : Timer) (id : nat) :
  timers (host w) = [t] ->
  mKeyRlsTimer (driver w) = Some id ->
  existsb isKeyDown cs = false ->
  (clock (host w) + elapsed cs < due t)%N ->
  let w' := exec (steps cs) w in
  timers (host w') = [t]
  /\ mKeyRlsTimer (driver w') = Some id
  /\ mCurrentKeys (driver w') = mCurrentKeys (driver w)
  /\ clock (host w') = (clock (host w) + elapsed cs)%N
  /\ nextTimer (host w') = nextTimer (host w).
Proof.
  revert w. induction cs as [|c rest IH]; intros w Htimers Href Hnone Hlt.
  - cbn. rewrite N.add_0_r. auto.
  - cbn [steps]. cbv zeta. rewrite exec_bind.
    cbn [existsb] in Hnone. apply orb_false_elim in Hnone.
    destruct Hnone as [Hc Hrest].
    assert (Hstep :
      timers (host (exec (step c) w)) = [t]
      /\ mKeyRlsTimer (driver (exec (step c) w)) = Some id
      /\ mCurrentKeys (driver (exec (step c) w)) = mCurrentKeys (driver w)
      /\ (clock (host (exec (step c) w)) + elapsed rest
          = clock (host w) + elapsed (c :: rest))%N
      /\ nextTimer (host (exec (step c) w)) = nextTimer (host w)).
    { destruct c as [power|value|value|x y|p|keys|messageType state|dt];
        try discriminate Hc.
      7: { cbn [step elapsed] in *.
           rewrite (elapse_before_due w t dt Htimers) by lia.
           cbn. repeat split; try assumption. lia. }
      all: match goal with
           | |- context [exec (step ?c) ?w0] =>
               assert (Hframe := other_calls_frame w0 c)
           end;
           cbv zeta in Hframe;
           destruct Hframe as (H0 & H1 & H2 & H3 & H4); try discriminate;
           rewrite H0, H1, H2, H3, H4; cbn [elapsed]; auto. }
    destruct Hstep as (H1 & H2 & H3 & H4 & H5).
    destruct (IH (exec (step c) w) H1 H2 Hrest) as (I1 & I2 & I3 & I4 & I5).
    + rewrite H4. exact Hlt.
    + rewrite I1, I2, I3, I4, I5, H3, H4, H5. auto.
Qed.

Lemma skipn_length_app {A : Type} (l extra : list A) :
  skipn (length l) (l ++ extra) = extra.
Proof.
  induction l as [|x l IH]; [reflexivity|exact IH].
Qed.

Lemma set_program_trace (w : World) (p : string) :
  exists events,
    trace (host (exec (set_program p) w)) = trace (host w) ++ events
    /\ existsb timerCall events = false.
Proof.
  unfold_act.
  destruct (parseProgramParams (mProgramParams (driver w)));
    destruct (parseProgramParams p); simpl; rewrite <- ?app_assoc;
    try (eexists; split; reflexivity).
  exists []. rewrite app_nil_r. auto.
Qed.

(** What the calls other than a keyDown write and the passing of time
    add to the trace has no timer call in it. *)
Lemma other_calls_trace (w : World) (c : Call) :
  (forall keys, c <> SetKeyDown keys) ->
  (forall dt, c <> Elapse dt) ->
  exists events,
    trace (host (exec (step c) w)) = trace (host w) ++ events
    /\ existsb timerCall events = false.
Proof.
  intros Hkey Htime.
  destruct c as [power|value|value|x y|p|keys|messageType state|dt];
    try (exfalso; eapply Hkey; reflexivity);
    try (exfalso; eapply Htime; reflexivity); cbn [step].
  - destruct power.
    + unfold_act. destruct (connected (host w)); simpl.
      * exists []. rewrite app_nil_r. auto.
      * eexists. split; reflexivity.
    + apply (set_program_trace w kPowerDownProgram).
  - unfold set_leftDown, sendMouseButtonState. unfold_act.
    destruct (negb (Bool.eqb (mLeftDown (driver w)) value)); simpl.
    + eexists. split; reflexivity.
    + exists []. rewrite app_nil_r. auto.
  - unfold set_rightDown, sendMouseButtonState. unfold_act.
    destruct (negb (Bool.eqb (mRightDown (driver w)) value)); simpl.
    + eexists. split; reflexivity.
    + exists []. rewrite app_nil_r. auto.
  - unfold moveMouse. unfold_act. simpl. eexists. split; reflexivity.
  - apply set_program_trace.
  - unfold deliver, connectListener, onConnectStateChanged. unfold_act.
    destruct (String.eqb messageType "Connection"); [destruct state|]; simpl;
      try (eexists; split; reflexivity).
    exists []. rewrite app_nil_r. auto.
Qed.

(** A timer is created or cancelled by non-empty keyDown writes and by
    nothing else. *)
Lemma timer_calls_only_from_keyDown (w : World) (c : Call) :
  timerOk w ->
  existsb timerCall (added (step c) w) =
    match c with
    | SetKeyDown keys => truthy (JStr keys)
    | _ => false
    end.
Proof.
  intros Hok. unfold added.
  destruct c as [power|value|value|x y|p|keys|messageType state|dt].
  6: { cbn [step]. destruct (String.eqb_spec keys "") as [->|Hkeys].
       - rewrite set_keyDown_empty. cbn [host].
         rewrite <- (app_nil_r (trace (host w))) at 2.
         rewrite skipn_length_app. reflexivity.
       - rewrite (set_keyDown_trace w keys Hkeys), skipn_length_app.
         apply truthy_string in Hkeys. rewrite Hkeys.
         cbn [existsb timerCall orb]. rewrite existsb_app. cbn.
         apply orb_true_r. }
  7: { cbn [step]. unfold timerOk in Hok.
       destruct (mKeyRlsTimer (driver w)) as [id|] eqn:Href.
       - destruct Hok as (d & Htimers & Hlt & Hle & Hfresh).
         destruct (N.le_gt_cases d (clock (host w) + dt)) as [Hdue|Hearly].
         + rewrite (elapse_release w id d dt Htimers Hdue). cbn [host trace].
           rewrite skipn_length_app. reflexivity.
         + rewrite (elapse_before_due w _ dt Htimers Hearly). cbn [host trace].
           rewrite <- (app_nil_r (trace (host w))) at 2.
           rewrite skipn_length_app. reflexivity.
       - rewrite (elapse_idle w dt Hok). cbn [host trace].
         rewrite <- (app_nil_r (trace (host w))) at 2.
         rewrite skipn_length_app. reflexivity. }
  all: match goal with
       | |- context [exec (step ?c) ?w0] =>
           destruct (other_calls_trace w0 c) as (events & Htrace & Hnone)
       end; try discriminate;
       rewrite Htrace, skipn_length_app; exact Hnone.
Qed.

(** *** The KeyPress line *)

Lemma index_last (l : list string) :
  l <> [] -> index l (length l - 1) = JStr (last l "").
Proof.
  induction l as [|x l IH]; [congruence|intros _].
  destruct l as [|y l]; [reflexivity|].
  specialize (IH ltac:(discriminate)).
  unfold index in *. cbn [length] in *.
  replace (S (S (length l)) - 1)%nat with (S (S (length l) - 1)) by lia.
  cbn [nth_error].
  change (last (x :: y :: l) "") with (last (y :: l) "").
  exact IH.
Qed.

(** Modifiers that the literal knows, or that neither the literal nor
    [Object.prototype] knows, add up as numbers: the table value for the
    former, [0] for the latter. *)
Lemma addModifier_numeric (mods : list string) (n : Z) :
  Forall (fun m => own modifierTable m <> None \/ objectPrototype m = None) mods ->
  fold_left addModifier mods (JNum n) =
    JNum (fold_left
            (fun sum m => match own modifierTable m with
                          | Some v => sum + v
                          | None => sum
                          end)%Z mods n).
Proof.
  revert n. induction mods as [|m mods IH]; intros n Hall; [reflexivity|].
  inversion Hall as [|? ? Hm Hrest]; subst.
  cbn [fold_left]. rewrite <- (IH _ Hrest). f_equal.
  unfold addModifier, modifierValues.
  destruct (own modifierTable m) as [v|] eqn:Hown.
  - unfold or, truthy. destruct (Z.eqb_spec v 0) as [->|_]; reflexivity.
  - destruct Hm as [Hm|Hm]; [congruence|]. rewrite Hm.
    cbn. rewrite Z.add_0_r. reflexivity.
Qed.

(** The line of a write whose modifiers are all of that kind: the last
    token and the sum, in decimal. *)
Lemma keyPressLine_numeric (keys : string) :
  Forall (fun m => own modifierTable m <> None \/ objectPrototype m = None)
    (removelast (split "+" keys)) ->
  keyPressLine keys =
    ("KeyPress " ++ last (split "+" keys) "" ++ " " ++
     num_toString
       (fold_left
          (fun sum m => match own modifierTable m with
                        | Some v => sum + v
                        | None => sum
                        end)%Z (removelast (split "+" keys)) 0%Z))%string.
Proof.
  intros Hall. unfold keyPressLine. cbv zeta.
  rewrite (index_last _ (split_nonempty "+" keys)).
  unfold slice_to.
  replace (length (split "+" keys) - 1)%nat
    with (pred (length (split "+" keys))) by lia.
  rewrite <- removelast_firstn_len.
  rewrite (addModifier_numeric _ 0 Hall). reflexivity.
Qed.

(** The example of the documentation, on every engine. *)
Lemma keyPressLine_shift_control_a :
  keyPressLine "shift+control+a" = "KeyPress a 3".
Proof. reflexivity. Qed.

(** C5, at the input [constructor+a]: the token [constructor] is not in
    the table, but the literal inherits a member of that name, so the
    fallback to [0] is not taken and the line carries [0] followed by
    the text of that member instead of [0]. *)
Theorem keyDown_inherited_name_is_not_zero (w : World) (text : string) :
  objectPrototype "constructor" = Some text ->
  own modifierTable "constructor" = None
  /\ keyPressLine "constructor+a" = ("KeyPress a 0" ++ text)%string
  /\ exists rest,
       trace (host (exec (set_keyDown "constructor+a") w)) =
         trace (host w) ++ SendText ("KeyPress a 0" ++ text)%string :: rest.
Proof.
  intros Hproto.
  assert (Hline : keyPressLine "constructor+a" = ("KeyPress a 0" ++ text)%string).
  { unfold keyPressLine. cbn -[objectPrototype].
    unfold addModifier, modifierValues. cbn -[objectPrototype].
    rewrite Hproto. reflexivity. }
  split; [reflexivity|]. split; [exact Hline|].
  rewrite set_keyDown_trace by discriminate. rewrite Hline.
  eexists. reflexivity.
Qed.

(** *** The release timer *)

(** C6: two non-empty writes with less than the delay between them.  The
    first write's timer is still queued when the second write comes; the
    second write sends its line, cancels that timer, and only then creates
    its own, which is the one timer queued afterwards.  From there a
    single release happens, once 200 units have passed since the second
    write: it stores the empty string, sends nothing and clears the
    reference.  In every world a session can be in, at most one timer is
    queued. *)
Theorem keyDown_rapid_writes
    (w : World) (k1 k2 : string) (between : list Call) :
  reachable w ->
  k1 <> "" ->
  k2 <> "" ->
  existsb isKeyDown between = false ->
  (elapsed between < 200)%N ->
  let first := nextTimer (host w) in
  let second := S first in
  let w1 := exec (steps between) (exec (set_keyDown k1) w) in
  let w2 := exec (set_keyDown k2) w1 in
  timers (host w1) = [mkTimer first (clock (host w) + 200) [ReleaseKeys]]
  /\ mKeyRlsTimer (driver w1) = Some first
  /\ trace (host w2) =
       trace (host w1) ++
         [SendText (keyPressLine k2); Cancel first; Wait second 200]
  /\ clock (host w2) = (clock (host w) + elapsed between)%N
  /\ timers (host w2) = [mkTimer second (clock (host w2) + 200) [ReleaseKeys]]
  /\ mKeyRlsTimer (driver w2) = Some second
  /\ (forall e : N,
        let w3 := exec (elapse e) w2 in
        trace (host w3) =
          trace (host w2) ++ (if (200 <=? e)%N then [Resolved second] else [])
        /\ mCurrentKeys (driver w3) = (if (200 <=? e)%N then "" else k2)
        /\ mKeyRlsTimer (driver w3) =
             (if (200 <=? e)%N then None else Some second)
        /\ length (timers (host w3)) = (if (200 <=? e)%N then 0 else 1)%nat)
  /\ (forall v : World, reachable v -> (length (timers (host v)) <= 1)%nat).
Proof.
  intros Hreach Hk1 Hk2 Hnone Hshort first second w1 w2.
  pose proof (reachable_timerOk w Hreach) as Hok.
  pose proof (set_keyDown_nonempty w k1 Hk1 Hok) as Hfirst.
  destruct (steps_keep_pending between (exec (set_keyDown k1) w)
              (mkTimer first (clock (host w) + 200) [ReleaseKeys]) first)
    as (Htimers & Href & _ & Hclock & Hnext).
  { rewrite Hfirst. reflexivity. }
  { rewrite Hfirst. reflexivity. }
  { exact Hnone. }
  { rewrite Hfirst. cbn. lia. }
  fold w1 in Htimers, Href, Hclock, Hnext.
  rewrite Hfirst in Hclock, Hnext. cbn in Hclock, Hnext.
  assert (Hok1 : timerOk w1).
  { unfold timerOk. rewrite Href. eexists. split; [exact Htimers|].
    rewrite Hclock, Hnext. fold first. lia. }
  pose proof (set_keyDown_nonempty w1 k2 Hk2 Hok1) as Hsecond.
  fold w2 in Hsecond. rewrite Href, Hnext, Hclock in Hsecond.
  fold first second in Hsecond.
  split; [exact Htimers|]. split; [exact Href|].
  rewrite Hsecond. cbn [host driver trace clock timers mKeyRlsTimer].
  do 4 (split; [reflexivity|]). split.
  - intros e. cbv zeta.
    destruct (N.leb_spec 200 e) as [Hlate|Hearly].
    + rewrite (elapse_release _ second (clock (host w) + elapsed between + 200) e);
        [|reflexivity|cbn; lia].
      cbn. repeat split.
    + rewrite (elapse_before_due _
                 (mkTimer second (clock (host w) + elapsed between + 200)
                    [ReleaseKeys]) e);
        [|reflexivity|cbn; lia].
      cbn. rewrite app_nil_r. repeat split.
  - intros v Hv. apply timerOk_at_most_one, reachable_timerOk, Hv.
Qed.

(** C10: an empty write while a release timer is queued.  It stores the
    empty string and leaves the host as it was, so nothing is cancelled
    and the reference stays; the timer is resolved when its time comes,
    the empty string is stored again and the reference is cleared.  A
    call creates or cancels a timer only if it is a non-empty keyDown
    write. *)
Theorem keyDown_empty_keeps_timer (w : World) (id : nat) :
  reachable w ->
  mKeyRlsTimer (driver w) = Some id ->
  let w1 := exec (set_keyDown "") w in
  exists d : N,
    timers (host w) = [mkTimer id d [ReleaseKeys]]
    /\ (d <= clock (host w) + 200)%N
    /\ mCurrentKeys (driver w1) = ""
    /\ mKeyRlsTimer (driver w1) = Some id
    /\ host w1 = host w
    /\ (forall e : N,
          let w2 := exec (elapse e) w1 in
          let isDue := (d <=? clock (host w) + e)%N in
          trace (host w2) =
            trace (host w) ++ (if isDue then [Resolved id] else [])
          /\ mCurrentKeys (driver w2) = ""
          /\ mKeyRlsTimer (driver w2) = (if isDue then None else Some id)
          /\ length (timers (host w2)) = (if isDue then 0 else 1)%nat)
    /\ (forall c : Call,
          existsb timerCall (added (step c) w) =
            match c with
            | SetKeyDown keys => truthy (JStr keys)
            | _ => false
            end).
Proof.
  intros Hreach Href w1.
  pose proof (reachable_timerOk w Hreach) as Hok.
  pose proof Hok as Hinv. unfold timerOk in Hinv. rewrite Href in Hinv.
  destruct Hinv as (d & Htimers & Hlt & Hle & Hfresh).
  exists d. subst w1. rewrite set_keyDown_empty.
  cbn [driver host mCurrentKeys mKeyRlsTimer].
  split; [exact Htimers|]. split; [exact Hle|].
  split; [reflexivity|]. split; [exact Href|]. split; [reflexivity|].
  split.
  - intros e. cbv zeta.
    destruct (N.leb_spec d (clock (host w) + e)) as [Hdue|Hearly].
    + rewrite (elapse_release _ id d e); [|exact Htimers|exact Hdue].
      cbn. repeat split.
    + rewrite (elapse_before_due _ (mkTimer id d [ReleaseKeys]) e);
        [|exact Htimers|exact Hearly].
      cbn. rewrite app_nil_r. repeat split. exact Href.
  - intros c. apply timer_calls_only_from_keyDown. exact Hok.
Qed.

End KeyDownFacts.

(** ** The theorems at concrete sessions *)

Lemma keyDown_inherited_name_is_not_zero_witness :
  @keyPressLine standardEngine "constructor+a" =
    "KeyPress a 0function Object() { [native code] }".
Proof.
  exact (proj1 (proj2 (@keyDown_inherited_name_is_not_zero standardEngine
                          (boot false) (nativeText "Object") eq_refl))).
Defined.

Lemma keyDown_rapid_writes_witness :
  let w := exec (constructor None) (boot true) in
  let w1 := exec (@steps standardEngine [Elapse 150; SetProgram "x"])
              (exec (@set_keyDown standardEngine "a") w) in
  trace (host (exec (@set_keyDown standardEngine "shift+b") w1)) =
    trace (host w1) ++ [SendText "KeyPress b 1"; Cancel 0; Wait 1 200].
Proof.
  exact (proj1 (proj2 (proj2
    (@keyDown_rapid_writes standardEngine
       (exec (constructor None) (boot true)) "a" "shift+b"
       [Elapse 150; SetProgram "x"]
       (reachable_new true None)
       ltac:(discriminate) ltac:(discriminate) eq_refl eq_refl)))).
Defined.

Lemma keyDown_empty_keeps_timer_witness :
  let w := exec (@set_keyDown standardEngine "a")
             (exec (constructor None) (boot true)) in
  mKeyRlsTimer (driver (exec (@set_keyDown standardEngine "") w)) = Some 0%nat
  /\ host (exec (@set_keyDown standardEngine "") w) = host w.
Proof.
  destruct (@keyDown_empty_keeps_timer standardEngine
              (exec (@set_keyDown standardEngine "a")
                 (exec (constructor None) (boot true))) 0%nat
              (reachable_step _ (SetKeyDown "a") (reachable_new true None))
              eq_refl)
    as (d & _ & _ & _ & Href & Hhost & _).
  split; [exact Href|exact Hhost].
Defined.

(** * Further properties of the driver *)

Import Wire.

(** ** The program property, for every input *)

(** A program write replaces the stored string and no other field. *)
Lemma set_program_driver (w : World) (p : string) :
  driver (exec (set_program p) w) =
    mkDriver (mLeftDown (driver w)) (mRightDown (driver w)) p
      (mCurrentKeys (driver w)) (mKeyRlsTimer (driver w)).
Proof.
  unfold_act. destruct (String.eqb_spec p "") as [->|Hp].
  - destruct (parseProgramParams (mProgramParams (driver w))); reflexivity.
  - rewrite (parseProgramParams_Some _ Hp).
    destruct (parseProgramParams (mProgramParams (driver w))); reflexivity.
Qed.

(** X1: the program getter returns what the setter was given, for every
    string, the empty one included. *)
Theorem program_get_after_set (w : World) (p : string) :
  fst (get_program (exec (set_program p) w)) = p.
Proof.
  unfold get_program, this, bind, ret. cbn [fst].
  rewrite set_program_driver. reflexivity.
Qed.

(** The lines of one program write, read off the two strings. *)
Lemma set_program_lines (w : World) (p : string) :
  trace (host (exec (set_program p) w)) =
    trace (host w) ++
      (if String.eqb (mProgramParams (driver w)) "" then []
       else [SendText ("Terminate " ++ dquote ++
                       hd "" (split "|" (mProgramParams (driver w))) ++ dquote)%string])
      ++
      (if String.eqb p "" then []
       else [SendText ("Launch " ++
                       join " " (JStr (quote (index (split "|" p) 1))
                                   :: JStr (dquote ++ hd "" (split "|" p) ++ dquote)
                                   :: map JStr (skipn 2 (split "|" p))))%string]).
Proof.
  unfold_act.
  destruct (String.eqb_spec (mProgramParams (driver w)) "") as [Hs|Hs];
    destruct (String.eqb_spec p "") as [Hp|Hp].
  - rewrite Hs, Hp. cbn. rewrite app_nil_r. reflexivity.
  - rewrite Hs, (parseProgramParams_Some _ Hp). cbn. reflexivity.
  - rewrite (parseProgramParams_Some _ Hs), Hp. cbn. reflexivity.
  - rewrite (parseProgramParams_Some _ Hs), (parseProgramParams_Some _ Hp).
    cbn. rewrite <- app_assoc. reflexivity.
Qed.

(** X2: a program write sends at most two lines: a [Terminate] exactly
    when a program string was stored, then a [Launch] exactly when the
    new string is not empty; it touches nothing but the stored string
    and the trace. *)
Theorem program_write_shape (w : World) (p : string) :
  let w' := exec (set_program p) w in
  trace (host w') =
    trace (host w) ++
      (if String.eqb (mProgramParams (driver w)) "" then []
       else [SendText ("Terminate " ++ dquote ++
                       hd "" (split "|" (mProgramParams (driver w))) ++ dquote)%string])
      ++
      (if String.eqb p "" then []
       else [SendText ("Launch " ++
                       join " " (JStr (quote (index (split "|" p) 1))
                                   :: JStr (dquote ++ hd "" (split "|" p) ++ dquote)
                                   :: map JStr (skipn 2 (split "|" p))))%string])
  /\ (length (trace (host w')) <= length (trace (host w)) + 2)%nat
  /\ driver w' =
       mkDriver (mLeftDown (driver w)) (mRightDown (driver w)) p
         (mCurrentKeys (driver w)) (mKeyRlsTimer (driver w))
  /\ connected (host w') = connected (host w)
  /\ clock (host w') = clock (host w)
  /\ timers (host w') = timers (host w)
  /\ nextTimer (host w') = nextTimer (host w).
Proof.
  cbv zeta. split; [apply set_program_lines|]. split.
  - rewrite set_program_lines. rewrite !length_app.
    destruct (String.eqb (mProgramParams (driver w)) "");
      destruct (String.eqb p ""); cbn; lia.
  - unfold_act.
    destruct (String.eqb_spec p "") as [->|Hp].
    + destruct (parseProgramParams (mProgramParams (driver w)));
        cbn; repeat split.
    + rewrite (parseProgramParams_Some _ Hp).
      destruct (parseProgramParams (mProgramParams (driver w)));
        cbn; repeat split.
Qed.

(** ** Power *)

(** X3: setting power to false stores [kPowerDownProgram] and launches
    it with an empty quoted working directory, after the [Terminate] of
    a program that was running; from then on the power getter is false,
    connected or not. *)
Theorem power_off_launches_shutdown (w : World) :
  let w' := exec (set_power false) w in
  fst (get_power w') = false
  /\ fst (get_program w') = kPowerDownProgram
  /\ trace (host w') =
       trace (host w) ++
         (if String.eqb (mProgramParams (driver w)) "" then []
          else [SendText ("Terminate " ++ dquote ++
                          hd "" (split "|" (mProgramParams (driver w))) ++ dquote)%string])
         ++ [SendText ("Launch " ++ dquote ++ dquote ++ " " ++ dquote
                       ++ "C:/Windows/System32/shutdown.exe" ++ dquote
                       ++ " /s /f /t 0")%string].
Proof.
  cbv zeta. change (set_power false) with (set_program kPowerDownProgram).
  split; [|split].
  - unfold get_power, get_program, socket_connected, this, bind, ret.
    cbn [fst]. rewrite set_program_driver. apply andb_false_r.
  - unfold get_program, this, bind, ret. cbn [fst].
    rewrite set_program_driver. reflexivity.
  - rewrite set_program_lines. reflexivity.
Qed.

(** A [Connection] message, in full. *)
Lemma deliver_connection (w : World) (state : bool) :
  exec (deliver "Connection" state) w =
    mkWorld
      (mkDriver (mLeftDown (driver w)) (mRightDown (driver w))
         (if state then mProgramParams (driver w) else "")
         (mCurrentKeys (driver w)) (mKeyRlsTimer (driver w)))
      (mkHost state (clock (host w)) (timers (host w)) (nextTimer (host w))
         (trace (host w) ++ [Changed "power"])).
Proof.
  unfold deliver, connectListener, onConnectStateChanged. unfold_act.
  destruct w as [d h]; destruct d; destruct state; reflexivity.
Qed.

(** X4: power off, then the peer goes away and comes back.  The power
    getter is false after the write and after the disconnection; the
    disconnection clears the stored program, so once the transport is
    connected again the getter is true. *)
Theorem power_cycle (w : World) :
  let off := exec (set_power false) w in
  let gone := exec (deliver "Connection" false) off in
  let back := exec (deliver "Connection" true) gone in
  fst (get_power off) = false
  /\ fst (get_power gone) = false
  /\ fst (get_program gone) = ""
  /\ fst (get_power back) = true
  /\ fst (get_program back) = "".
Proof.
  cbv zeta.
  change (set_power false) with (set_program kPowerDownProgram).
  rewrite !deliver_connection.
  unfold get_power, get_program, socket_connected, this, bind, ret.
  cbn -[set_program]. rewrite set_program_driver. cbn -[set_program].
  repeat split. apply andb_false_r.
Qed.

(** X5: a message on the ['connect'] subscription whose type is not
    [Connection] is ignored by the driver: no notification, and the
    stored program stays even when the transport is disconnected. *)
Theorem other_messages_ignored (w : World) (messageType : string) (state : bool) :
  messageType <> "Connection" ->
  let w' := exec (deliver messageType state) w in
  driver w' = driver w
  /\ trace (host w') = trace (host w)
  /\ connected (host w') = state.
Proof.
  intros Htype. apply String.eqb_neq in Htype.
  unfold deliver, connectListener. unfold_act. rewrite Htype.
  destruct w as [d h]; destruct d; cbn. repeat split.
Qed.

Lemma other_messages_ignored_witness :
  let w := exec (set_program "exe|dir") (boot true) in
  mProgramParams (driver (exec (deliver "ConnectionFailed" false) w)) = "exe|dir"
  /\ trace (host (exec (deliver "ConnectionFailed" false) w)) = trace (host w).
Proof.
  destruct (other_messages_ignored (exec (set_program "exe|dir") (boot true))
              "ConnectionFailed" false ltac:(discriminate))
    as (Hdriver & Htrace & _).
  split; [rewrite Hdriver; reflexivity|exact Htrace].
Defined.

(** ** The mouse buttons *)

(** X6: the left button.  A write that changes the stored value sends
    one [MousePress] line with mask 1024 and code 1 for down, 2 for up; a
    write of the stored value sends nothing; so writing a value twice is
    writing it once, and the getter returns the value written. *)
Theorem leftDown_idempotent (w : World) (value : bool) :
  let w' := exec (set_leftDown value) w in
  trace (host w') =
    trace (host w) ++
      (if Bool.eqb (mLeftDown (driver w)) value then []
       else [SendText (if value then "MousePress 1024 1" else "MousePress 1024 2")])
  /\ fst (get_leftDown w') = value
  /\ exec (set_leftDown value) w' = w'
  /\ mRightDown (driver w') = mRightDown (driver w).
Proof.
  unfold set_leftDown, get_leftDown, sendMouseButtonState, assign_mLeftDown.
  unfold_act. destruct w as [d h]; destruct d as [l r p k t].
  destruct l, value; cbn; rewrite ?app_nil_r; repeat split.
Qed.

(** X7: the right button, likewise, with mask 4096. *)
Theorem rightDown_idempotent (w : World) (value : bool) :
  let w' := exec (set_rightDown value) w in
  trace (host w') =
    trace (host w) ++
      (if Bool.eqb (mRightDown (driver w)) value then []
       else [SendText (if value then "MousePress 4096 1" else "MousePress 4096 2")])
  /\ fst (get_rightDown w') = value
  /\ exec (set_rightDown value) w' = w'
  /\ mLeftDown (driver w') = mLeftDown (driver w).
Proof.
  unfold set_rightDown, get_rightDown, sendMouseButtonState, assign_mRightDown.
  unfold_act. destruct w as [d h]; destruct d as [l r p k t].
  destruct r, value; cbn; rewrite ?app_nil_r; repeat split.
Qed.

(** ** What a session writes, over its whole life *)

Lemma pressedFrom_app (downLine upLine : string) (state : bool)
    (tr extra : list Event) :
  pressedFrom downLine upLine state (tr ++ extra) =
    pressedFrom downLine upLine (pressedFrom downLine upLine state tr) extra.
Proof. unfold pressedFrom. apply fold_left_app. Qed.

Section SessionFacts.
Context {engine : Engine}.

(** One call, seen from the wire: the events it adds all open with a
    command word, and the button lines among them say what the driver
    then stores for the buttons. *)
Lemma step_delta (w : World) (c : Call) :
  timerOk w ->
  exists events,
    trace (host (exec (step c) w)) = trace (host w) ++ events
    /\ forallb knownEvent events = true
    /\ pressedFrom "MousePress 1024 1" "MousePress 1024 2"
         (mLeftDown (driver w)) events
       = mLeftDown (driver (exec (step c) w))
    /\ pressedFrom "MousePress 4096 1" "MousePress 4096 2"
         (mRightDown (driver w)) events
       = mRightDown (driver (exec (step c) w)).
Proof.
  intros Hok.
  assert (Hprogram : forall p,
    exists events,
      trace (host (exec (set_program p) w)) = trace (host w) ++ events
      /\ forallb knownEvent events = true
      /\ pressedFrom "MousePress 1024 1" "MousePress 1024 2"
           (mLeftDown (driver w)) events
         = mLeftDown (driver (exec (set_program p) w))
      /\ pressedFrom "MousePress 4096 1" "MousePress 4096 2"
           (mRightDown (driver w)) events
         = mRightDown (driver (exec (set_program p) w))).
  { intros p. rewrite set_program_lines, set_program_driver.
    eexists. split; [reflexivity|].
    destruct (String.eqb (mProgramParams (driver w)) "");
      destruct (String.eqb p ""); cbn; repeat split; try reflexivity. }
  destruct c as [power|value|value|x y|p|keys|messageType state|dt];
    cbn [step].
  - destruct power; [|apply Hprogram].
    unfold_act. destruct (connected (host w)); cbn.
    + exists []. rewrite app_nil_r. repeat split; try reflexivity.
    + eexists. split; [reflexivity|]. repeat split; try reflexivity.
  - unfold set_leftDown, sendMouseButtonState, assign_mLeftDown. unfold_act.
    destruct (mLeftDown (driver w)) eqn:Hstored, value; cbn; rewrite ?Hstored;
      first [ solve [exists []; rewrite app_nil_r; repeat split; try reflexivity]
            | solve [eexists; split; [reflexivity|]; repeat split; try reflexivity] ].
  - unfold set_rightDown, sendMouseButtonState, assign_mRightDown. unfold_act.
    destruct (mRightDown (driver w)) eqn:Hstored, value; cbn; rewrite ?Hstored;
      first [ solve [exists []; rewrite app_nil_r; repeat split; try reflexivity]
            | solve [eexists; split; [reflexivity|]; repeat split; try reflexivity] ].
  - unfold moveMouse. unfold_act. cbn.
    eexists. split; [reflexivity|]. repeat split; try reflexivity.
  - apply Hprogram.
  - destruct (String.eqb_spec keys "") as [->|Hkeys].
    + rewrite set_keyDown_empty. cbn.
      exists []. rewrite app_nil_r. repeat split; try reflexivity.
    + rewrite (set_keyDown_nonempty w keys Hkeys Hok). cbn [host driver trace].
      eexists. split; [reflexivity|]. unfold keyPressLine.
      destruct (mKeyRlsTimer (driver w)); cbn; repeat split; try reflexivity.
  - unfold deliver, connectListener, onConnectStateChanged. unfold_act.
    destruct (String.eqb messageType "Connection"); [destruct state|]; cbn;
      first [ solve [exists []; rewrite app_nil_r; repeat split; try reflexivity]
            | solve [eexists; split; [reflexivity|]; repeat split; try reflexivity] ].
  - unfold timerOk in Hok.
    destruct (mKeyRlsTimer (driver w)) as [id|] eqn:Href.
    + destruct Hok as (d & Htimers & Hlt & Hle & Hfresh).
      destruct (N.le_gt_cases d (clock (host w) + dt)) as [Hdue|Hearly].
      * rewrite (elapse_release w id d dt Htimers Hdue). cbn.
        eexists. split; [reflexivity|]. repeat split; try reflexivity.
      * rewrite (elapse_before_due w _ dt Htimers Hearly). cbn.
        exists []. rewrite app_nil_r. repeat split; try reflexivity.
    + rewrite (elapse_idle w dt Hok). cbn.
      exists []. rewrite app_nil_r. repeat split; try reflexivity.
Qed.

Lemma constructor_trace (isConnected : bool) (bufferSize : option Z) :
  trace (host (exec (constructor bufferSize) (boot isConnected))) =
    match bufferSize with
    | Some n => if Z.eqb n 0 then [] else [SetMaxLineLength n]
    | None => []
    end
    ++ [EnableWakeOnLAN; AutoConnect; Subscribe "connect"]
    ++ (if isConnected then [Changed "power"] else []).
Proof.
  unfold constructor, onConnectStateChanged. unfold_act.
  destruct bufferSize as [n|]; [cbn; destruct (Z.eqb n 0)|];
    destruct isConnected; reflexivity.
Qed.

Lemma constructor_driver (isConnected : bool) (bufferSize : option Z) :
  driver (exec (constructor bufferSize) (boot isConnected)) =
    mkDriver false false "" "" None.
Proof.
  unfold constructor, onConnectStateChanged. unfold_act.
  destruct bufferSize as [n|]; [cbn; destruct (Z.eqb n 0)|];
    destruct isConnected; reflexivity.
Qed.

(** The wire invariant of a session: every event of its trace is known,
    and the last button lines agree with the stored button values. *)
Lemma reachable_wire (w : World) :
  reachable w ->
  forallb knownEvent (trace (host w)) = true
  /\ pressed "MousePress 1024 1" "MousePress 1024 2" (trace (host w))
     = mLeftDown (driver w)
  /\ pressed "MousePress 4096 1" "MousePress 4096 2" (trace (host w))
     = mRightDown (driver w).
Proof.
  induction 1 as [isConnected bufferSize|w c Hreach (Hknown & Hleft & Hright)].
  - rewrite constructor_trace, constructor_driver.
    destruct bufferSize as [n|]; [destruct (Z.eqb n 0)|];
      destruct isConnected; repeat split.
  - destruct (step_delta w c (reachable_timerOk w Hreach))
      as (events & Htrace & Hev & Hl & Hr).
    rewrite Htrace. unfold pressed in *.
    rewrite forallb_app, !pressedFrom_app, Hknown, Hev, Hleft, Hright.
    repeat split; assumption.
Qed.

Lemma string_app_assoc (a b c : string) :
  ((a ++ b) ++ c = a ++ b ++ c)%string.
Proof.
  induction a as [|x a IH]; [reflexivity|]. cbn. rewrite IH. reflexivity.
Qed.

Lemma startsWith_split (word line : string) :
  startsWith word line = true -> exists rest, line = (word ++ rest)%string.
Proof.
  revert line. induction word as [|a word IH]; intros line Hstarts.
  - exists line. reflexivity.
  - destruct line as [|b line]; [discriminate|].
    cbn in Hstarts. apply andb_prop in Hstarts. destruct Hstarts as [Hab Hrest].
    apply Ascii.eqb_eq in Hab. subst b.
    destruct (IH line Hrest) as [rest ->]. exists rest. reflexivity.
Qed.

(** X8: in every world a session can be in, what the peer was last told
    about each mouse button is what the driver stores for it: the last
    [MousePress 1024] line of the trace says down exactly when
    [mLeftDown] is true, and likewise for 4096 and [mRightDown]; with no
    such line the button is up and the field is false. *)
Theorem buttons_agree_with_trace (w : World) :
  reachable w ->
  pressed "MousePress 1024 1" "MousePress 1024 2" (trace (host w))
    = fst (get_leftDown w)
  /\ pressed "MousePress 4096 1" "MousePress 4096 2" (trace (host w))
    = fst (get_rightDown w).
Proof.
  intros Hreach. destruct (reachable_wire w Hreach) as (_ & Hleft & Hright).
  split; assumption.
Qed.

(** X9: every line a session ever writes opens with one of the five
    command words of the protocol, followed by a space. *)
Theorem lines_open_with_command_word (w : World) (line : string) :
  reachable w ->
  In (SendText line) (trace (host w)) ->
  exists word rest,
    In word ["MouseMove"; "MousePress"; "KeyPress"; "Terminate"; "Launch"]
    /\ line = (word ++ " " ++ rest)%string.
Proof.
  intros Hreach Hin. destruct (reachable_wire w Hreach) as (Hknown & _).
  rewrite forallb_forall in Hknown. specialize (Hknown _ Hin).
  cbn [knownEvent] in Hknown. unfold knownLine in Hknown.
  apply existsb_exists in Hknown. destruct Hknown as (word & Hword & Hstarts).
  apply startsWith_split in Hstarts. destruct Hstarts as [rest ->].
  exists word, rest. split; [exact Hword|].
  apply string_app_assoc.
Qed.

(** The key combination is only ever stored together with a release
    timer. *)
Lemma reachable_keys_have_timer (w : World) :
  reachable w ->
  mCurrentKeys (driver w) <> "" -> mKeyRlsTimer (driver w) <> None.
Proof.
  induction 1 as [isConnected bufferSize|w c Hreach IH].
  - rewrite constructor_driver. cbn. congruence.
  - pose proof (reachable_timerOk w Hreach) as Hok.
    destruct c as [power|value|value|x y|p|keys|messageType state|dt].
    6: { cbn [step]. destruct (String.eqb_spec keys "") as [->|Hkeys].
         - rewrite set_keyDown_empty. cbn. congruence.
         - rewrite (set_keyDown_nonempty w keys Hkeys Hok). cbn. discriminate. }
    7: { cbn [step]. unfold timerOk in Hok.
         destruct (mKeyRlsTimer (driver w)) as [id|] eqn:Href.
         - destruct Hok as (d & Htimers & Hlt & Hle & Hfresh).
           destruct (N.le_gt_cases d (clock (host w) + dt)) as [Hdue|Hearly].
           + rewrite (elapse_release w id d dt Htimers Hdue). cbn. congruence.
           + rewrite (elapse_before_due w _ dt Htimers Hearly). cbn.
             rewrite Href. discriminate.
         - rewrite (elapse_idle w dt Hok). cbn. rewrite Href. exact IH. }
    all: match goal with
         | |- context [exec (step ?c) ?w0] =>
             assert (Hframe := other_calls_frame w0 c)
         end;
         cbv zeta in Hframe;
         destruct Hframe as (H0 & H1 & _); try discriminate;
         rewrite H0, H1; exact IH.
Qed.

(** X10: a key combination never outlives the delay.  From any world a
    session can be in, once 200 units or more pass without a call, the
    keyDown getter returns the empty string, no timer is referenced and
    none is queued. *)
Theorem keys_released_within_delay (w : World) (dt : N) :
  reachable w ->
  (200 <= dt)%N ->
  let w' := exec (elapse dt) w in
  fst (get_keyDown w') = ""
  /\ mKeyRlsTimer (driver w') = None
  /\ timers (host w') = [].
Proof.
  intros Hreach Hdt. cbv zeta.
  pose proof (reachable_timerOk w Hreach) as Hok.
  pose proof (reachable_keys_have_timer w Hreach) as Hkeys.
  unfold timerOk in Hok.
  destruct (mKeyRlsTimer (driver w)) as [id|] eqn:Href.
  - destruct Hok as (d & Htimers & Hlt & Hle & Hfresh).
    rewrite (elapse_release w id d dt Htimers) by lia.
    repeat split.
  - rewrite (elapse_idle w dt Hok). cbn. rewrite Href. repeat split.
    destruct (String.eqb_spec (mCurrentKeys (driver w)) "") as [E|E];
      [exact E|]. exfalso. apply (Hkeys E). reflexivity.
Qed.

End SessionFacts.

Lemma buttons_agree_with_trace_witness :
  let w := exec (@steps standardEngine
                   [SetLeftDown true; SetRightDown true; SetLeftDown false])
             (exec (constructor None) (boot true)) in
  pressed "MousePress 1024 1" "MousePress 1024 2" (trace (host w)) = false
  /\ pressed "MousePress 4096 1" "MousePress 4096 2" (trace (host w)) = true.
Proof.
  exact (@buttons_agree_with_trace standardEngine _
           (reachable_step _ (SetLeftDown false)
              (reachable_step _ (SetRightDown true)
                 (reachable_step _ (SetLeftDown true)
                    (reachable_new true None))))).
Defined.

Lemma lines_open_with_command_word_witness :
  exists word rest,
    In word ["MouseMove"; "MousePress"; "KeyPress"; "Terminate"; "Launch"]
    /\ ("Launch " ++ dquote ++ "c" ++ dquote ++ " " ++ dquote ++ "b" ++ dquote
        ++ " d")%string = (word ++ " " ++ rest)%string.
Proof.
  apply (@lines_open_with_command_word standardEngine
           (exec (@step standardEngine (SetProgram "b|c|d"))
              (exec (constructor None) (boot true)))).
  - apply reachable_step, reachable_new.
  - cbn. right. right. right. right. left. reflexivity.
Defined.

Lemma keys_released_within_delay_witness :
  let w := exec (@set_keyDown standardEngine "alt+x")
             (exec (constructor None) (boot true)) in
  fst (@get_keyDown (exec (@elapse standardEngine 200) w)) = "".
Proof.
  exact (proj1 (@keys_released_within_delay standardEngine
                  (exec (@set_keyDown standardEngine "alt+x")
                     (exec (constructor None) (boot true))) 200
                  (reachable_step _ (SetKeyDown "alt+x") (reachable_new true None))
                  ltac:(discriminate))).
Defined.

(** ** Splitting and joining *)

Lemma split_lacks (sep : ascii) (s : string) :
  Forall (fun token => lacks sep token = true) (split sep s).
Proof.
  induction s as [|c rest IH]; cbn.
  - repeat constructor.
  - destruct (Ascii.eqb c sep) eqn:Hc.
    + constructor; [reflexivity|exact IH].
    + destruct (split sep rest) as [|head tail].
      * repeat constructor. cbn. rewrite Hc. reflexivity.
      * inversion IH as [|? ? Hhead Htail]; subst.
        constructor; [cbn; rewrite Hc, Hhead; reflexivity|exact Htail].
Qed.

Lemma split_single (sep : ascii) (s : string) :
  lacks sep s = true -> split sep s = [s].
Proof.
  induction s as [|c rest IH]; cbn; [reflexivity|].
  intros Hlacks. apply andb_prop in Hlacks. destruct Hlacks as [Hc Hrest].
  apply negb_true_iff in Hc. rewrite Hc, (IH Hrest). reflexivity.
Qed.

Lemma split_app (sep : ascii) (token rest : string) :
  lacks sep token = true ->
  split sep (token ++ String sep rest) = token :: split sep rest.
Proof.
  induction token as [|c token IH]; cbn.
  - intros _. rewrite Ascii.eqb_refl. reflexivity.
  - intros Hlacks. apply andb_prop in Hlacks. destruct Hlacks as [Hc Htoken].
    apply negb_true_iff in Hc. rewrite Hc, (IH Htoken). reflexivity.
Qed.

Lemma join_cons (sep : string) (v : jsval) (rest : list jsval) :
  rest <> [] ->
  join sep (v :: rest) = (join_elem v ++ sep ++ join sep rest)%string.
Proof.
  destruct rest; [congruence|reflexivity].
Qed.

(** Splitting and joining back with the separator gives the string. *)
Lemma join_split (sep : ascii) (s : string) :
  join (String sep "") (map JStr (split sep s)) = s.
Proof.
  induction s as [|c rest IH]; [reflexivity|].
  cbn [split]. pose proof (split_nonempty sep rest) as Hne.
  destruct (Ascii.eqb c sep) eqn:Hc.
  - apply Ascii.eqb_eq in Hc. subst c.
    cbn [map]. rewrite join_cons.
    + rewrite IH. reflexivity.
    + destruct (split sep rest); [congruence|discriminate].
  - destruct (split sep rest) as [|head tail]; [congruence|].
    cbn [map] in *. destruct tail as [|next tail].
    + cbn in *. rewrite IH. reflexivity.
    + rewrite join_cons by discriminate.
      rewrite join_cons in IH by discriminate.
      cbn [join_elem toString] in *. rewrite <- IH. reflexivity.
Qed.

(** Joining tokens that lack the separator and splitting gives the
    tokens. *)
Lemma split_join (sep : ascii) (tokens : list string) :
  tokens <> [] ->
  Forall (fun token => lacks sep token = true) tokens ->
  split sep (join (String sep "") (map JStr tokens)) = tokens.
Proof.
  induction tokens as [|token rest IH]; [congruence|intros _ Hall].
  inversion Hall as [|? ? Htoken Hrest]; subst.
  destruct rest as [|next rest].
  - cbn. apply split_single. exact Htoken.
  - cbn [map]. rewrite join_cons by discriminate.
    cbn [join_elem toString append].
    rewrite (split_app sep token _ Htoken).
    f_equal. apply IH; [discriminate|exact Hrest].
Qed.

(** The last token is the end piece of the string behind the last
    separator: the string is the token itself, or a front that ends with
    the separator followed by the token. *)
Lemma split_last_suffix (sep : ascii) (s : string) :
  exists front,
    s = (front ++ last (split sep s) "")%string
    /\ ((split sep s = [s] /\ front = "")
        \/ exists f, front = (f ++ String sep "")%string).
Proof.
  induction s as [|c rest (front & IH & Hfront)].
  - exists "". split; [reflexivity|]. left. split; reflexivity.
  - cbn [split]. pose proof (split_nonempty sep rest) as Hne.
    destruct (Ascii.eqb c sep) eqn:Hc.
    + apply Ascii.eqb_eq in Hc. subst c.
      destruct (split sep rest) as [|head tail] eqn:Hsplit; [congruence|].
      exists (String sep front).
      change (last ("" :: head :: tail) "") with (last (head :: tail) "").
      split; [cbn [append]; rewrite <- IH; reflexivity|]. right.
      destruct Hfront as [(_ & ->)|(f & ->)].
      * exists "". reflexivity.
      * exists (String sep f). reflexivity.
    + destruct (split sep rest) as [|head tail] eqn:Hsplit; [congruence|].
      destruct tail as [|next tail].
      * pose proof (join_split sep rest) as Hjoin. rewrite Hsplit in Hjoin.
        cbn in Hjoin. subst head. exists "".
        split; [reflexivity|]. left. split; reflexivity.
      * exists (String c front).
        change (last (String c head :: next :: tail) "")
          with (last (head :: next :: tail) "").
        split; [cbn [append]; rewrite <- IH; reflexivity|]. right.
        destruct Hfront as [(Hone & _)|(f & ->)]; [discriminate Hone|].
        exists (String c f). reflexivity.
Qed.

(** ** The key and its modifiers *)

Section KeyFacts.
Context {engine : Engine}.

(** X11: the key of a [KeyPress] line is the part of the input behind
    its last [+], or the whole input when it has none; it never contains
    a [+], so the plus key itself cannot be sent. *)
Theorem key_is_behind_last_plus (w : World) (keys : string) :
  keys <> "" ->
  exists front key sum rest,
    keys = (front ++ key)%string
    /\ (front = "" \/ exists f, front = (f ++ "+")%string)
    /\ lacks "+" key = true
    /\ trace (host (exec (set_keyDown keys) w)) =
         trace (host w) ++
           SendText ("KeyPress " ++ key ++ " " ++ sum)%string :: rest.
Proof.
  intros Hkeys.
  destruct (split_last_suffix "+" keys) as (front & Hsuffix & Hfront).
  exists front, (last (split "+" keys) "").
  eexists. eexists.
  split; [exact Hsuffix|]. split.
  { destruct Hfront as [(_ & ->)|Hends]; [left; reflexivity|right; exact Hends]. }
  split.
  { pose proof (split_lacks "+" keys) as Hall.
    rewrite Forall_forall in Hall. apply Hall.
    destruct (exists_last (split_nonempty "+" keys)) as (tokens & token & ->).
    rewrite last_last. apply in_or_app. right. left. reflexivity. }
  rewrite (set_keyDown_trace w keys Hkeys). unfold keyPressLine. cbv zeta.
  rewrite (index_last _ (split_nonempty "+" keys)).
  reflexivity.
Qed.

(** X12: an input without [+] is a bare key: the line carries the whole
    input and the modifier sum [0]. *)
Theorem bare_key_has_no_modifiers (w : World) (keys : string) :
  keys <> "" ->
  lacks "+" keys = true ->
  exists rest,
    trace (host (exec (set_keyDown keys) w)) =
      trace (host w) ++ SendText ("KeyPress " ++ keys ++ " 0")%string :: rest.
Proof.
  intros Hkeys Hlacks.
  rewrite (set_keyDown_trace w keys Hkeys). unfold keyPressLine.
  rewrite (split_single "+" keys Hlacks). eexists. reflexivity.
Qed.

(** The sum of table values does not depend on the order. *)
Lemma modifier_sum_permutation (mods mods' : list string) (n : Z) :
  Permutation mods mods' ->
  fold_left (fun sum m => match own modifierTable m with
                          | Some v => sum + v
                          | None => sum
                          end)%Z mods n
  = fold_left (fun sum m => match own modifierTable m with
                            | Some v => sum + v
                            | None => sum
                            end)%Z mods' n.
Proof.
  intros Hperm. revert n.
  induction Hperm as [|m l l' _ IH|a b l|l l' l'' _ IH1 _ IH2]; intros n.
  - reflexivity.
  - cbn [fold_left]. apply IH.
  - cbn [fold_left]. f_equal.
    destruct (own modifierTable a), (own modifierTable b); lia.
  - rewrite IH1. apply IH2.
Qed.

(** X13: the order of the modifiers does not matter.  For modifier
    tokens that are in the table, or known neither to the table nor to
    [Object.prototype], two inputs that list the same modifiers in
    different orders before the same key send the same line. *)
Theorem modifier_order_is_irrelevant (mods mods' : list string) (key : string) :
  Permutation mods mods' ->
  Forall (fun m => lacks "+" m = true) mods ->
  lacks "+" key = true ->
  Forall (fun m => own modifierTable m <> None \/ objectPrototype m = None) mods ->
  keyPressLine (join "+" (map JStr (mods ++ [key])))
  = keyPressLine (join "+" (map JStr (mods' ++ [key]))).
Proof.
  intros Hperm Hlacks Hkey Hnumeric.
  assert (Hlacks' : Forall (fun m => lacks "+" m = true) mods').
  { rewrite Forall_forall in *. intros m Hm. apply Hlacks.
    apply (Permutation_in _ (Permutation_sym Hperm)). exact Hm. }
  assert (Hnumeric' :
    Forall (fun m => own modifierTable m <> None \/ objectPrototype m = None) mods').
  { rewrite Forall_forall in *. intros m Hm. apply Hnumeric.
    apply (Permutation_in _ (Permutation_sym Hperm)). exact Hm. }
  assert (Hsplit : forall l,
    Forall (fun m => lacks "+" m = true) l ->
    split "+" (join "+" (map JStr (l ++ [key]))) = l ++ [key]).
  { intros l Hl. apply split_join.
    - destruct l; discriminate.
    - apply Forall_app. split; [exact Hl|]. constructor; [exact Hkey|constructor]. }
  rewrite !keyPressLine_numeric;
    rewrite ?(Hsplit mods Hlacks), ?(Hsplit mods' Hlacks'), ?removelast_last;
    try assumption.
  rewrite !last_last.
  rewrite (modifier_sum_permutation mods mods' 0 Hperm). reflexivity.
Qed.

End KeyFacts.

Lemma key_is_behind_last_plus_witness :
  exists front key sum rest,
    "shift+control+a" = (front ++ key)%string
    /\ (front = "" \/ exists f, front = (f ++ "+")%string)
    /\ lacks "+" key = true
    /\ trace (host (exec (@set_keyDown standardEngine "shift+control+a")
                      (boot true))) =
         trace (host (boot true)) ++
           SendText ("KeyPress " ++ key ++ " " ++ sum)%string :: rest.
Proof.
  apply (@key_is_behind_last_plus standardEngine (boot true) "shift+control+a").
  discriminate.
Defined.

Lemma bare_key_has_no_modifiers_witness :
  exists rest,
    trace (host (exec (@set_keyDown standardEngine "F5") (boot true))) =
      trace (host (boot true)) ++ SendText "KeyPress F5 0" :: rest.
Proof.
  apply (@bare_key_has_no_modifiers standardEngine (boot true) "F5");
    [discriminate|reflexivity].
Defined.

Lemma modifier_order_is_irrelevant_witness :
  @keyPressLine standardEngine "shift+alt+x"
  = @keyPressLine standardEngine "alt+shift+x".
Proof.
  apply (@modifier_order_is_irrelevant standardEngine
           ["shift"; "alt"] ["alt"; "shift"] "x").
  - apply perm_swap.
  - repeat constructor.
  - reflexivity.
  - repeat constructor; left; discriminate.
Defined.

(** ** Parsing, once more *)

Lemma string_length_app (a b : string) :
  String.length (a ++ b) = (String.length a + String.length b)%nat.
Proof.
  induction a as [|x a IH]; [reflexivity|]. cbn. rewrite IH. reflexivity.
Qed.

Lemma string_app_cancel_r (a b c : string) :
  (a ++ c)%string = (b ++ c)%string -> a = b.
Proof.
  revert b. induction a as [|x a IH]; intros [|y b] Heq; cbn in Heq.
  - reflexivity.
  - apply (f_equal String.length) in Heq. cbn in Heq.
    rewrite string_length_app in Heq. lia.
  - apply (f_equal String.length) in Heq. cbn in Heq.
    rewrite string_length_app in Heq. lia.
  - injection Heq as -> Heq. f_equal. apply IH. exact Heq.
Qed.

(** X14: parsing loses nothing of an input that has a second segment:
    two inputs with at least two segments each that parse to the same
    spec are the same string. *)
Theorem parseProgramParams_injective (p q : string) :
  (2 <= length (split "|" p))%nat ->
  (2 <= length (split "|" q))%nat ->
  parseProgramParams p = parseProgramParams q ->
  p = q.
Proof.
  intros Hp Hq Hparse.
  assert (Hpne : p <> "") by (intros ->; cbn in Hp; lia).
  assert (Hqne : q <> "") by (intros ->; cbn in Hq; lia).
  rewrite (parseProgramParams_Some _ Hpne), (parseProgramParams_Some _ Hqne)
    in Hparse.
  rewrite <- (join_split "|" p), <- (join_split "|" q).
  destruct (split "|" p) as [|exe [|dir args]]; cbn in Hp; try lia.
  destruct (split "|" q) as [|exe' [|dir' args']]; cbn in Hq; try lia.
  injection Hparse as Hexe Hdir Hargs. cbn in Hexe, Hdir, Hargs.
  apply string_app_cancel_r in Hexe, Hdir. subst. reflexivity.
Qed.

Lemma parseProgramParams_injective_witness :
  (2 <= length (split "|" "exe|dir|a"))%nat /\ "exe|dir|a" = "exe|dir|a".
Proof.
  split; [cbn; lia|].
  apply (parseProgramParams_injective "exe|dir|a" "exe|dir|a");
    [cbn; lia|cbn; lia|reflexivity].
Defined.

(** X15: an input without a second segment is taken for the same input
    with the second segment [undefined]: for every executable path
    without a pipe, the two parse to the same spec, so the two program
    writes send the same lines. *)
Theorem missing_workingDir_reads_undefined (exe : string) :
  exe <> "" ->
  lacks "|" exe = true ->
  parseProgramParams exe = parseProgramParams (exe ++ "|undefined")
  /\ parseProgramParams exe =
       Some {| program := (dquote ++ exe ++ dquote)%string;
               workingDir := (dquote ++ "undefined" ++ dquote)%string;
               arguments := [] |}.
Proof.
  intros Hexe Hlacks.
  assert (Hlong : (exe ++ "|undefined")%string <> "").
  { destruct exe; [congruence|discriminate]. }
  rewrite (parseProgramParams_Some _ Hexe), (parseProgramParams_Some _ Hlong).
  rewrite (split_app "|" exe "undefined" Hlacks), (split_single "|" exe Hlacks).
  split; reflexivity.
Qed.

Lemma missing_workingDir_reads_undefined_witness :
  parseProgramParams "notepad.exe" = parseProgramParams "notepad.exe|undefined".
Proof.
  exact (proj1 (missing_workingDir_reads_undefined "notepad.exe"
                  ltac:(discriminate) eq_refl)).
Defined.

(** ** Program writes in the life of a session *)

(** X16: after the transport reported a disconnection, the next program
    write sends no [Terminate]: only the [Launch] of the new program, or
    nothing at all for the empty string. *)
Theorem no_terminate_after_disconnect (w : World) (p : string) :
  let gone := exec (deliver "Connection" false) w in
  trace (host (exec (set_program p) gone)) =
    trace (host gone) ++
      (if String.eqb p "" then []
       else [SendText ("Launch " ++
                       join " " (JStr (quote (index (split "|" p) 1))
                                   :: JStr (dquote ++ hd "" (split "|" p) ++ dquote)
                                   :: map JStr (skipn 2 (split "|" p))))%string]).
Proof.
  cbv zeta. rewrite set_program_lines.
  assert (Hcleared :
    mProgramParams (driver (exec (deliver "Connection" false) w)) = "").
  { unfold deliver, connectListener, onConnectStateChanged. unfold_act.
    reflexivity. }
  rewrite Hcleared. reflexivity.
Qed.

(** X17: the constructor.  It sets the line length only for a buffer
    size that is given and not zero, then enables wake-on-LAN, starts
    connecting and subscribes, in this order; it raises the initial
    [power] notification only when the transport is already connected;
    the driver starts with both buttons up, no program, no keys and no
    timer. *)
Theorem constructor_behaviour (isConnected : bool) (bufferSize : option Z) :
  let w := exec (constructor bufferSize) (boot isConnected) in
  trace (host w) =
    match bufferSize with
    | Some n => if Z.eqb n 0 then [] else [SetMaxLineLength n]
    | None => []
    end
    ++ [EnableWakeOnLAN; AutoConnect; Subscribe "connect"]
    ++ (if isConnected then [Changed "power"] else [])
  /\ driver w = mkDriver false false "" "" None
  /\ fst (get_power w) = isConnected
  /\ timers (host w) = [].
Proof.
  cbv zeta. split; [apply constructor_trace|].
  split; [apply constructor_driver|].
  unfold constructor, onConnectStateChanged, get_power, get_program. unfold_act.
  destruct bufferSize as [n|]; [cbn; destruct (Z.eqb n 0)|];
    destruct isConnected; split; reflexivity.
Qed.

Section ProgramFacts.
Context {engine : Engine}.

Lemma step_keeps_program (w : World) (c : Call) :
  timerOk w ->
  keepsProgram c = true ->
  mProgramParams (driver (exec (step c) w)) = mProgramParams (driver w).
Proof.
  intros Hok Hkeeps.
  destruct c as [power|value|value|x y|p|keys|messageType state|dt];
    cbn [step]; cbn in Hkeeps; try discriminate Hkeeps.
  - subst power. unfold_act. destruct (connected (host w)); reflexivity.
  - unfold set_leftDown, sendMouseButtonState, assign_mLeftDown. unfold_act.
    destruct (negb (Bool.eqb (mLeftDown (driver w)) value)); reflexivity.
  - unfold set_rightDown, sendMouseButtonState, assign_mRightDown. unfold_act.
    destruct (negb (Bool.eqb (mRightDown (driver w)) value)); reflexivity.
  - reflexivity.
  - destruct (String.eqb_spec keys "") as [->|Hkeys].
    + rewrite set_keyDown_empty. reflexivity.
    + rewrite (set_keyDown_nonempty w keys Hkeys Hok). reflexivity.
  - unfold deliver, connectListener, onConnectStateChanged. unfold_act.
    destruct (String.eqb messageType "Connection"); [|reflexivity].
    cbn in Hkeeps. subst state. reflexivity.
  - unfold timerOk in Hok.
    destruct (mKeyRlsTimer (driver w)) as [id|] eqn:Href.
    + destruct Hok as (d & Htimers & Hlt & Hle & Hfresh).
      destruct (N.le_gt_cases d (clock (host w) + dt)) as [Hdue|Hearly].
      * rewrite (elapse_release w id d dt Htimers Hdue). reflexivity.
      * rewrite (elapse_before_due w _ dt Htimers Hearly). reflexivity.
    + rewrite (elapse_idle w dt Hok). reflexivity.
Qed.

Lemma steps_keep_program (cs : list Call) (w : World) :
  reachable w ->
  forallb keepsProgram cs = true ->
  mProgramParams (driver (exec (steps cs) w)) = mProgramParams (driver w).
Proof.
  revert w. induction cs as [|c rest IH]; intros w Hreach Hall.
  - reflexivity.
  - cbn [steps]. rewrite exec_bind.
    cbn [forallb] in Hall. apply andb_prop in Hall. destruct Hall as [Hc Hrest].
    rewrite IH; [|apply reachable_step; exact Hreach|exact Hrest].
    apply step_keeps_program; [apply reachable_timerOk; exact Hreach|exact Hc].
Qed.

(** X18: a [Terminate] names what was launched last.  After a write of
    a non-empty program string, and any run of calls that are neither a
    program write, nor a power-off, nor the message of a disconnection,
    the getter still returns that string and the next program write
    first sends the [Terminate] of its quoted executable. *)
Theorem terminate_names_last_launch
    (w : World) (p q : string) (between : list Call) :
  reachable w ->
  p <> "" ->
  forallb keepsProgram between = true ->
  let w1 := exec (steps between) (exec (set_program p) w) in
  fst (get_program w1) = p
  /\ exists rest,
       trace (host (exec (set_program q) w1)) =
         trace (host w1) ++
           SendText ("Terminate " ++ dquote ++ hd "" (split "|" p) ++ dquote)%string
           :: rest.
Proof.
  intros Hreach Hp Hall. cbv zeta.
  assert (Hstored :
    mProgramParams (driver (exec (steps between) (exec (set_program p) w))) = p).
  { rewrite steps_keep_program; [|exact (reachable_step w (SetProgram p) Hreach)
                                  |exact Hall].
    rewrite set_program_driver. reflexivity. }
  split; [exact Hstored|].
  rewrite set_program_lines, Hstored.
  apply String.eqb_neq in Hp. rewrite Hp. eexists. reflexivity.
Qed.

End ProgramFacts.

Lemma terminate_names_last_launch_witness :
  let w1 := exec (@steps standardEngine
                    [SetKeyDown "a"; Elapse 500; SetLeftDown true;
                     Message "Connection" true; SetPower true])
              (exec (set_program "exe|dir") (exec (constructor None) (boot true))) in
  exists rest,
    trace (host (exec (set_program "") w1)) =
      trace (host w1) ++
        SendText ("Terminate " ++ dquote ++ "exe" ++ dquote)%string :: rest.
Proof.
  exact (proj2 (@terminate_names_last_launch standardEngine
                  (exec (constructor None) (boot true)) "exe|dir" ""
                  [SetKeyDown "a"; Elapse 500; SetLeftDown true;
                   Message "Connection" true; SetPower true]
                  (reachable_new true None) ltac:(discriminate) eq_refl)).
Defined.

(** ** The timer reference *)

Section TimerFacts.
Context {engine : Engine}.

(** X19: the timer reference is never stale.  In every world a session
    can be in, the driver refers to a timer exactly when one is queued;
    the queued timer is then the referenced one, it carries the release
    continuation once, and it is due later than now and no later than
    200 units from now. *)
Theorem timer_reference_never_stale (w : World) :
  reachable w ->
  (mKeyRlsTimer (driver w) = None <-> timers (host w) = [])
  /\ (forall id,
        mKeyRlsTimer (driver w) = Some id ->
        exists d,
          timers (host w) = [mkTimer id d [ReleaseKeys]]
          /\ (clock (host w) < d <= clock (host w) + 200)%N).
Proof.
  intros Hreach. pose proof (reachable_timerOk w Hreach) as Hok.
  unfold timerOk in Hok.
  destruct (mKeyRlsTimer (driver w)) as [id|].
  - destruct Hok as (d & Htimers & Hlt & Hle & _). split.
    + rewrite Htimers. split; discriminate.
    + intros id' [= <-]. exists d. split; [exact Htimers|lia].
  - split; [tauto|discriminate].
Qed.

End TimerFacts.

Lemma timer_reference_never_stale_witness :
  let w := exec (@steps standardEngine [SetKeyDown "a"; Elapse 50; SetKeyDown "b"])
             (exec (constructor None) (boot true)) in
  exists d, timers (host w) = [mkTimer 1 d [ReleaseKeys]]
            /\ (clock (host w) < d <= clock (host w) + 200)%N.
Proof.
  apply (proj2 (@timer_reference_never_stale standardEngine _
                  (reachable_step _ (SetKeyDown "b")
                     (reachable_step _ (Elapse 50)
                        (reachable_step _ (SetKeyDown "a")
                           (reachable_new true None)))))).
  reflexivity.
Defined.

(** ** The line of a command *)


